(** * MAVLink 2 frame encoder: a shallow embedding and its checked properties

    The repository holds two variants of one packet generator:

    - [src/mavlink_parser.py], class [SimpleMAVLinkGenerator]: the plain
      variant, whose [create_mavlink_packet] computes the checksum with an
      inline loop and no seed byte;
    - [src/random scripts/mavlink_parser.py], class [MAVLinkSender]: the
      seeded variant, whose [create_mavlink_packet] calls [calculate_crc]
      with a per-message [crc_extra] byte.

    Python integers are modelled as [Z], byte strings as lists of [Z] in the
    range 0..255, Python [str] as [string], the value dictionary as a
    [gmap string pyval], the mutable [self.sequence] attribute by explicit
    state passing. *)

From Stdlib Require Import ZArith QArith List Bool Lia Ascii String DecimalString.
From Stdlib Require Import DecimalFacts DecimalPos DecimalN.
From Stdlib Require Import Floats.SpecFloat.
From stdpp Require Import gmap strings list.

Local Open Scope Z_scope.

(** ** The checksum loops *)

Module Crc.

(** One pass of the inner [for _ in range(8)] body:
    [if crc & 0x8000: crc = (crc << 1) ^ 0x1021
     else:            crc = crc << 1
     crc &= 0xFFFF]. *)
Definition crc_round (crc : Z) : Z :=
  let crc :=
    if Z.eqb (Z.land crc 0x8000) 0
    then Z.shiftl crc 1
    else Z.lxor (Z.shiftl crc 1) 0x1021 in
  Z.land crc 0xFFFF.

(** The body of [for byte in ...]: [crc ^= byte << 8] followed by the eight
    rounds. *)
Definition crc_byte (crc byte : Z) : Z :=
  Nat.iter 8 crc_round (Z.lxor crc (Z.shiftl byte 8)).

(** The inline loop of the plain variant (src/mavlink_parser.py, lines
    216-224), as a function of the bytes it iterates over. *)
Definition plain_crc (data : list Z) : Z :=
  fold_left crc_byte data 0xFFFF.

(** [MAVLinkSender.calculate_crc(data, crc_extra)]: the extra byte is
    absorbed first, by a copy of the loop body, then the data bytes. *)
Definition calculate_crc (data : list Z) (crc_extra : Z) : Z :=
  let crc := 0xFFFF in
  let crc := Z.lxor crc (Z.shiftl crc_extra 8) in
  let crc := Nat.iter 8 crc_round crc in
  fold_left (fun crc byte => Nat.iter 8 crc_round (Z.lxor crc (Z.shiftl byte 8)))
            data crc.

(** [MAVLinkSender.get_standard_crc_extra]: a dictionary lookup with
    default 0. *)
Definition crc_extras : gmap Z Z :=
  list_to_map
    [ (0, 50); (1, 124); (30, 39); (33, 104); (74, 142); (253, 83); (251, 170) ].

Definition get_standard_crc_extra (message_id : Z) : Z :=
  default 0 (crc_extras !! message_id).

(** The selection of [crc_extra] in the seeded [create_mavlink_packet]
    (lines 209-214). *)
Definition select_crc_extra (message_id : Z) : Z :=
  if message_id <? 50000
  then get_standard_crc_extra message_id
  else Z.lxor (Z.land message_id 0xFF) (Z.land (Z.shiftr message_id 8) 0xFF).

(** *** The reference CRC of the specification

    This definition follows the wording of the specification, not the code:
    a 16-bit register, initial value 0xFFFF; per byte, XOR the byte shifted
    left by 8 into the register, then 8 rounds of "if bit 15 is set, shift
    left and XOR 0x1021, else shift left", masked to 16 bits after every
    round. *)
Definition reference_round (reg : Z) : Z :=
  (if Z.testbit reg 15 then Z.lxor (2 * reg) 0x1021 else 2 * reg) mod 2 ^ 16.

Definition reference_absorb (reg byte : Z) : Z :=
  Nat.iter 8 reference_round (Z.lxor reg (byte * 2 ^ 8)).

Definition reference_crc16 (bytes : list Z) : Z :=
  fold_left reference_absorb bytes 0xFFFF.

(** The inverse of one round on 16-bit registers: the low bit of the result
    tells whether the polynomial was XORed in. *)
Definition crc_unround (crc : Z) : Z :=
  if Z.testbit crc 0
  then Z.lor (Z.shiftr (Z.lxor crc 0x1021) 1) 0x8000
  else Z.shiftr crc 1.

End Crc.

(** ** Python values and the exceptions the encoder can meet *)

(** The values a caller can store in the [data] dictionary: [int], [float]
    (its IEEE-754 binary64 bit pattern), [str] (code points below 256) and
    [bytes]. Other kinds of Python objects are not part of this model. *)
Inductive pyval :=
| VInt (n : Z)
| VFloat (bits : Z)
| VStr (s : string)
| VBytes (bs : list Z).

Inductive exn :=
| StructError          (* struct.error *)
| OverflowError
| IndexError
| UnicodeEncodeError
| ValueError.

(** ** IEEE-754 conversions used by [struct.pack] and by [str] *)

Module Ieee.

Definition sign_bit (width : Z) (s : bool) : Z :=
  if s then 2 ^ (width - 1) else 0.

(** A binary64 bit pattern as a [spec_float]. *)
Definition decode64 (bits : Z) : spec_float :=
  let s := Z.testbit bits 63 in
  let ex := Z.land (Z.shiftr bits 52) 0x7FF in
  let frac := Z.land bits (2 ^ 52 - 1) in
  if ex =? 0 then
    if frac =? 0 then S754_zero s else S754_finite s (Z.to_pos frac) (-1074)
  else if ex =? 0x7FF then
    if frac =? 0 then S754_infinity s else S754_nan
  else S754_finite s (Z.to_pos (frac + 2 ^ 52)) (ex - 1075).

(** The bit pattern of a canonical [spec_float] in a format with [mw]
    stored mantissa bits and [ew] exponent bits ([emin] is the exponent of
    the subnormals). The quiet NaN stands for [S754_nan]. *)
Definition encode (mw ew emin : Z) (x : spec_float) : Z :=
  let width := 1 + ew + mw in
  match x with
  | S754_zero s => sign_bit width s
  | S754_infinity s => sign_bit width s + (2 ^ ew - 1) * 2 ^ mw
  | S754_nan => (2 ^ ew - 1) * 2 ^ mw + 2 ^ (mw - 1)
  | S754_finite s m e =>
      if Zpos m <? 2 ^ mw
      then sign_bit width s + Zpos m
      else sign_bit width s + (e - emin + 1) * 2 ^ mw + (Zpos m - 2 ^ mw)
  end.

Definition encode32 : spec_float -> Z := encode 23 8 (-149).
Definition encode64 : spec_float -> Z := encode 52 11 (-1074).

(** [PyFloat_Pack4]: the C cast [(float)x], which rounds to nearest even;
    a finite double that rounds to infinity is an [OverflowError]. A NaN
    keeps its sign and the top 23 payload bits and is made quiet. *)
Definition float32_of_double (bits : Z) : exn + Z :=
  match decode64 bits with
  | S754_nan =>
      inr (sign_bit 32 (Z.testbit bits 63) + 0x7FC00000
           + Z.land (Z.shiftr bits 29) 0x3FFFFF)
  | S754_finite s m e =>
      match binary_round 24 128 s m e with
      | S754_infinity _ => inl OverflowError
      | y => inr (encode32 y)
      end
  | x => inr (encode32 x)
  end.

(** [PyLong_AsDouble]: the nearest double, or nothing when the integer is
    too large. *)
Definition double_of_int (n : Z) : option Z :=
  match n with
  | Z0 => Some 0
  | Zpos p =>
      match binary_round 53 1024 false p 0 with
      | S754_infinity _ => None
      | y => Some (encode64 y)
      end
  | Zneg p =>
      match binary_round 53 1024 true p 0 with
      | S754_infinity _ => None
      | y => Some (encode64 y)
      end
  end.

(** *** The first character of [repr(x)] for a float

    [repr] prints the shortest decimal string that reads back as [x], and
    among those the closest to [x]. Its first significant digit is found
    without producing the other digits: when a decimal with one
    significant digit lies in the rounding interval of [x], the closest
    such decimal is the whole output; otherwise every real in the interval
    has the leading digit and decimal exponent of [x] itself.

    A positive finite double is [m * 2^e]. Binary quantities are counted in
    quarter units in the last place, [a * 2^(e-2)], and compared with the
    decimals [d * 10^q] as integers after scaling both sides by
    [2^max(2-e,0) * 10^326]: [a * 2^(e-2)] becomes [a * sb] and [d * 10^q]
    becomes [d * 10^(q+326) * sd]. *)
Section ReprHead.
Variables (m e : Z).

Definition bin_scale : Z := 2 ^ Z.max (e - 2) 0 * 10 ^ 326.
Definition dec_scale : Z := 2 ^ Z.max (2 - e) 0.

(** The largest [p] at or below the start with [10^p <= x], where [x] is
    the scaled value of the double. *)
Fixpoint floor_log10 (sd x : Z) (fuel : nat) (p : Z) : Z :=
  match fuel with
  | O => p
  | S fuel' =>
      if 10 ^ (p + 326) * sd <=? x then p else floor_log10 sd x fuel' (p - 1)
  end.

(** The rounding interval of the double: half a unit in the last place
    on each side, a quarter below a power of two; the ends belong to it
    when the mantissa is even. *)
Definition interval (sb : Z) : Z * Z :=
  let below := if (m =? 2 ^ 52) && (-1074 <? e) then 1 else 2 in
  ((4 * m - below) * sb, (4 * m + 2) * sb).

Definition in_interval (lo hi c : Z) : bool :=
  if Z.even m then (lo <=? c) && (c <=? hi) else (lo <? c) && (c <? hi).

(** Candidates are triples (digit, exponent, scaled value); [x] is the
    scaled value of the double. *)
Definition closer (lo hi x : Z) (best : option (Z * Z * Z)) (cand : Z * Z * Z)
  : option (Z * Z * Z) :=
  let '(d, q, c) := cand in
  if in_interval lo hi c then
    match best with
    | None => Some cand
    | Some (_, _, c') =>
        if Z.abs (c - x) <? Z.abs (c' - x) then Some cand else best
    end
  else best.

(** The leading digit of the shortest output and the position of the
    decimal point relative to it ([decpt] of [dtoa]). The search for the
    decimal exponent starts just above [log10 (2^(log2 m + e + 1))]. *)
Definition shortest_head : Z * Z :=
  let sb := bin_scale in
  let sd := dec_scale in
  let x := 4 * m * sb in
  let '(lo, hi) := interval sb in
  let p := floor_log10 sd x 8 ((Z.log2 m + e + 1) * 30103 / 100000 + 1) in
  let u := 10 ^ (p - 1 + 326) * sd in
  let cands :=
    flat_map
      (fun '(q, uq) => map (fun d => (d, q, d * uq)) [1; 2; 3; 4; 5; 6; 7; 8; 9])
      [(p - 1, u); (p, 10 * u); (p + 1, 100 * u)] in
  match fold_left (closer lo hi x) cands None with
  | Some (d, q, _) => (d, q + 1)
  | None => (x / (10 * u), p + 1)
  end.
End ReprHead.

Definition digit_char (d : Z) : ascii :=
  ascii_of_nat (Z.to_nat (48 + d)).

(** [repr(x)[0]]: ['n'] of [nan], ['-'], ['i'] of [inf], or the first
    digit; [float_repr] switches to the exponent form when
    [decpt <= -4] or [decpt > 16], and prints a leading ["0."] for the
    other values below 1. *)
Definition repr_head (bits : Z) : ascii :=
  match decode64 bits with
  | S754_nan => "n"%char
  | S754_zero s => if s then "-"%char else "0"%char
  | S754_infinity s => if s then "-"%char else "i"%char
  | S754_finite s mx ex =>
      if s then "-"%char
      else
        let '(d, decpt) := shortest_head (Zpos mx) ex in
        if (-4 <? decpt) && (decpt <=? 0) then "0"%char else digit_char d
  end.

End Ieee.

(** ** [struct.pack] in the little-endian standard mode *)

(** The format characters the encoder appends to [format_str]. The leading
    ['<'] (little-endian, standard sizes, no padding) is implicit. *)
Inductive fmt :=
| fmt_B | fmt_b | fmt_H | fmt_h | fmt_I | fmt_i | fmt_Q | fmt_q
| fmt_f | fmt_d | fmt_c.

(** [n] as [w] bytes, least significant first; a negative [n] comes out in
    two's complement. *)
Fixpoint le_bytes (w : nat) (n : Z) : list Z :=
  match w with
  | O => []
  | S w' => n mod 256 :: le_bytes w' (n / 256)
  end.

(** Size in bytes and accepted range of the integer formats. *)
Definition int_format (c : fmt) : option (nat * Z * Z) :=
  match c with
  | fmt_B => Some (1%nat, 0, 255)
  | fmt_b => Some (1%nat, -128, 127)
  | fmt_H => Some (2%nat, 0, 65535)
  | fmt_h => Some (2%nat, -32768, 32767)
  | fmt_I => Some (4%nat, 0, 4294967295)
  | fmt_i => Some (4%nat, -2147483648, 2147483647)
  | fmt_Q => Some (8%nat, 0, 18446744073709551615)
  | fmt_q => Some (8%nat, -9223372036854775808, 9223372036854775807)
  | _ => None
  end.

(** The double a float format receives: a [float] as it is, an [int]
    through [__float__]; anything else, or an [int] too large for a double,
    is "required argument is not a float". *)
Definition as_double (v : pyval) : exn + Z :=
  match v with
  | VFloat bits => inr bits
  | VInt n =>
      match Ieee.double_of_int n with
      | Some bits => inr bits
      | None => inl StructError
      end
  | _ => inl StructError
  end.

(** One argument of [struct.pack] under one format character. When the
    argument is an [int], [struct.pack] turns an [OverflowError] of the
    conversion into [struct.error] ("int too large to convert"). *)
Definition pack_one (c : fmt) (v : pyval) : exn + list Z :=
  match int_format c with
  | Some (w, lo, hi) =>
      match v with
      | VInt n =>
          if (lo <=? n) && (n <=? hi) then inr (le_bytes w n) else inl StructError
      | _ => inl StructError
      end
  | None =>
      match c with
      | fmt_f =>
          match as_double v with
          | inr bits =>
              match Ieee.float32_of_double bits with
              | inr b32 => inr (le_bytes 4 b32)
              | inl e =>
                  match v with
                  | VInt _ => inl StructError
                  | _ => inl e
                  end
              end
          | inl e => inl e
          end
      | fmt_d =>
          match as_double v with
          | inr bits => inr (le_bytes 8 bits)
          | inl e => inl e
          end
      | _ =>
          match v with
          | VBytes [x] => inr [x]
          | _ => inl StructError
          end
      end
  end.

(** [struct.pack(format, *values)]: the arguments are converted left to
    right, the first failure is the exception raised; a count mismatch is a
    [struct.error]. *)
Fixpoint struct_pack (format : list fmt) (values : list pyval) : exn + list Z :=
  match format, values with
  | [], [] => inr []
  | c :: format', v :: values' =>
      match pack_one c v with
      | inr bs =>
          match struct_pack format' values' with
          | inr rest => inr (bs ++ rest)
          | inl e => inl e
          end
      | inl e => inl e
      end
  | _, _ => inl StructError
  end.

(** ** The payload loop shared by both variants *)

(** [x in field_type] for a non-empty token [x]. *)
Fixpoint contains (token s : string) : bool :=
  String.prefix token s ||
  match s with
  | EmptyString => false
  | String _ s' => contains token s'
  end.

(** The [if]/[elif] chain on [field_type]; a type string that matches no
    branch falls through the chain. *)
Definition struct_code (field_type : string) : option fmt :=
  if contains "uint8" field_type then Some fmt_B
  else if contains "int8" field_type then Some fmt_b
  else if contains "uint16" field_type then Some fmt_H
  else if contains "int16" field_type then Some fmt_h
  else if contains "uint32" field_type then Some fmt_I
  else if contains "int32" field_type then Some fmt_i
  else if contains "uint64" field_type then Some fmt_Q
  else if contains "int64" field_type then Some fmt_q
  else if contains "float" field_type then Some fmt_f
  else if contains "double" field_type then Some fmt_d
  else if contains "char" field_type then Some fmt_c
  else None.

(** [sys.get_int_max_str_digits()], as CPython sets it: [str] of an [int]
    with more decimal digits is a [ValueError]. *)
Definition int_max_str_digits : nat := 4300.

(** [str(value)]. Only the first character of a float's or a bytes
    object's string is produced. *)
Definition py_str (value : pyval) : exn + string :=
  match value with
  | VInt n =>
      let digits := NilZero.string_of_uint (N.to_uint (Z.abs_N n)) in
      if (String.length digits <=? int_max_str_digits)%nat
      then inr (NilZero.string_of_int (Z.to_int n))
      else inl ValueError
  | VFloat bits => inr (String (Ieee.repr_head bits) EmptyString)
  | VStr s => inr s
  | VBytes _ => inr "b"%string
  end.

(** [bytes(str(value)[0], 'ascii')]. *)
Definition first_char_ascii (value : pyval) : exn + pyval :=
  match py_str value with
  | inl e => inl e
  | inr EmptyString => inl IndexError
  | inr (String a _) =>
      let code := Z.of_nat (nat_of_ascii a) in
      if code <? 128 then inr (VBytes [code]) else inl UnicodeEncodeError
  end.

(** [data.get(field_name, 0)]. *)
Definition data_get (data : gmap string pyval) (field_name : string) : pyval :=
  default (VInt 0) (data !! field_name).

(** What a branch of the chain appends to [values]: the value itself, or
    for ['c'] the one-byte [bytes] object. *)
Definition argument (c : fmt) (value : pyval) : exn + pyval :=
  match c with
  | fmt_c => first_char_ascii value
  | _ => inr value
  end.

(** The [for field_name, field_type in fields] loop: the format characters
    and the values collected for [struct.pack]. *)
Fixpoint collect (fields : list (string * string)) (data : gmap string pyval)
  : exn + (list fmt * list pyval) :=
  match fields with
  | [] => inr ([], [])
  | (field_name, field_type) :: rest =>
      let value := data_get data field_name in
      match struct_code field_type with
      | None => collect rest data
      | Some c =>
          match argument c value with
          | inl e => inl e
          | inr a =>
              match collect rest data with
              | inl e => inl e
              | inr (format, values) => inr (c :: format, a :: values)
              end
          end
      end
  end.

(** What a call of [create_mavlink_packet] ends in: the packet, [None]
    after a caught [struct.error], or an exception that leaves the
    function. *)
Inductive outcome :=
| Packet (packet : list Z)
| ReturnedNone
| Raised (e : exn).

(** The part of [create_mavlink_packet] up to [payload_bytes]: [struct.pack]
    is called only [if values], a [struct.error] is caught there and the
    function returns [None]; other exceptions are not caught. *)
Definition pack_payload (fields : list (string * string)) (data : gmap string pyval)
  : outcome + list Z :=
  match collect fields data with
  | inl e => inl (Raised e)
  | inr (format, values) =>
      match values with
      | [] => inr []
      | _ =>
          match struct_pack format values with
          | inr payload_bytes => inr payload_bytes
          | inl StructError => inl ReturnedNone
          | inl e => inl (Raised e)
          end
      end
  end.

(** ** The encoder objects *)

(** The attributes set by [__init__]. *)
Record encoder := {
  system_id : Z;
  component_id : Z;
  sequence : Z
}.

Definition init (system_id component_id : Z) : encoder :=
  {| system_id := system_id; component_id := component_id; sequence := 0 |}.

(** [msg_info], the dictionary built by [load_xml]. *)
Record msg_info := {
  name : string;
  fields : list (string * string)
}.

(** The ten header bytes: seven ['B'] fields, the upper sixteen bits of the
    message id as ['<H'], one zero byte. *)
Definition pack_header (self : encoder) (seq payload_len message_id : Z)
  : exn + list Z :=
  match struct_pack [fmt_B; fmt_B; fmt_B; fmt_B; fmt_B; fmt_B; fmt_B]
          [VInt payload_len; VInt 0x00; VInt 0x00; VInt seq;
           VInt (system_id self); VInt (component_id self);
           VInt (Z.land message_id 0xFF)] with
  | inl e => inl e
  | inr header =>
      match struct_pack [fmt_H] [VInt (Z.land (Z.shiftr message_id 8) 0xFFFF)] with
      | inl e => inl e
      | inr mid => inr (header ++ mid ++ [0x00])
      end
  end.

(** [self.sequence = (self.sequence + 1) & 0xFF]. *)
Definition advance (self : encoder) : encoder :=
  {| system_id := system_id self;
     component_id := component_id self;
     sequence := Z.land (sequence self + 1) 0xFF |}.

(** The common shape of [create_mavlink_packet]; [checksum] receives the
    message id, the header and the payload. *)
Definition create_packet_with (checksum : Z -> list Z -> list Z -> Z)
    (self : encoder) (message_id : Z) (info : msg_info)
    (data : gmap string pyval) : outcome * encoder :=
  match pack_payload (fields info) data with
  | inl stop => (stop, self)
  | inr payload_bytes =>
      let payload_len := Z.of_nat (length payload_bytes) in
      let seq := sequence self in
      let self := advance self in
      match pack_header self seq payload_len message_id with
      | inl e => (Raised e, self)
      | inr header =>
          let crc := checksum message_id header payload_bytes in
          match struct_pack [fmt_H] [VInt crc] with
          | inl e => (Raised e, self)
          | inr crc_bytes =>
              (Packet ([0xFD] ++ header ++ payload_bytes ++ crc_bytes), self)
          end
      end
  end.

(** [SimpleMAVLinkGenerator.create_mavlink_packet] (src/mavlink_parser.py):
    the loop runs over [header[1:] + payload_bytes]. *)
Module Plain.

Definition checksum (message_id : Z) (header payload_bytes : list Z) : Z :=
  Crc.plain_crc (drop 1 header ++ payload_bytes).

Definition create_mavlink_packet := create_packet_with checksum.

End Plain.

(** [MAVLinkSender.create_mavlink_packet]
    (src/random scripts/mavlink_parser.py):
    [crc_data = header[1:] + payload_bytes], seeded with the selected
    [crc_extra]. *)
Module Seeded.

Definition checksum (message_id : Z) (header payload_bytes : list Z) : Z :=
  let crc_extra := Crc.select_crc_extra message_id in
  let crc_data := drop 1 header ++ payload_bytes in
  Crc.calculate_crc crc_data crc_extra.

Definition create_mavlink_packet := create_packet_with checksum.

End Seeded.

(** A caller that encodes one message after another on the same object, as
    the loops of [generate_from_xml] and [run] do; each call is a message
    id, its definition and a value dictionary. *)
Fixpoint encode_all
    (create : encoder -> Z -> msg_info -> gmap string pyval -> outcome * encoder)
    (self : encoder) (calls : list (Z * msg_info * gmap string pyval))
  : list outcome * encoder :=
  match calls with
  | [] => ([], self)
  | (message_id, info, data) :: rest =>
      let '(out, self) := create self message_id info data in
      let '(outs, self) := encode_all create self rest in
      (out :: outs, self)
  end.

(** ** Vocabulary of the specification

    These definitions follow the wording of the specification; the
    theorems below compare them with the encoder. *)

(** The byte width the specification gives each wire type. The code's
    ['f'] is its float32 and ['d'] its float64. *)
Definition wireWidth (c : fmt) : nat :=
  match c with
  | fmt_B | fmt_b | fmt_c => 1
  | fmt_H | fmt_h => 2
  | fmt_I | fmt_i | fmt_f => 4
  | fmt_Q | fmt_q | fmt_d => 8
  end.

(** The width a declared field adds to the payload. *)
Definition field_width (field : string * string) : nat :=
  match struct_code (snd field) with
  | Some c => wireWidth c
  | None => 0
  end.

Definition payload_width (fields : list (string * string)) : nat :=
  list_sum (map field_width fields).

(** The type tokens the encoder looks for. *)
Definition type_tokens : list string :=
  [ "uint8"; "int8"; "uint16"; "int16"; "uint32"; "int32"; "uint64"; "int64";
    "float"; "double"; "char" ].

Definition recognized (field : string * string) : bool :=
  match struct_code (snd field) with Some _ => true | None => false end.

(** A value is in range for a wire type: an integer within the bounds of an
    integer type; a number whose binary32 rounding is finite for float32;
    a number that has a double for float64; for char, a value that has a
    string form, and one that starts with an ASCII character. *)
Definition in_range (c : fmt) (v : pyval) : bool :=
  match int_format c with
  | Some (_, lo, hi) =>
      match v with
      | VInt n => (lo <=? n) && (n <=? hi)
      | _ => false
      end
  | None =>
      match c with
      | fmt_f =>
          match as_double v with
          | inr bits =>
              match Ieee.float32_of_double bits with inr _ => true | inl _ => false end
          | inl _ => false
          end
      | fmt_d => match as_double v with inr _ => true | inl _ => false end
      | _ =>
          match py_str v with
          | inr (String a _) => Z.of_nat (nat_of_ascii a) <? 128
          | _ => false
          end
      end
  end.

(** A declared field has a recognized type and an in-range value (the
    looked-up one, or the default of the lookup). *)
Definition valid_field (data : gmap string pyval) (field : string * string) : bool :=
  match struct_code (snd field) with
  | Some c => in_range c (data_get data (fst field))
  | None => false
  end.

(** The ten header bytes of a frame, spelled out: length, two flag bytes,
    sequence, sender ids, low byte of the message id, its upper sixteen
    bits in little-endian order, padding. *)
Definition header_bytes (self : encoder) (seq payload_len message_id : Z) : list Z :=
  [payload_len; 0; 0; seq; system_id self; component_id self;
   Z.land message_id 0xFF]
  ++ le_bytes 2 (Z.land (Z.shiftr message_id 8) 0xFFFF) ++ [0].

(** A value the header can hold in one byte. *)
Definition is_byte (n : Z) : bool := (0 <=? n) && (n <=? 255).

Definition is_packet (o : outcome) : bool :=
  match o with Packet _ => true | _ => false end.

(** The sequence byte of an emitted frame: index 4, after the start byte,
    the length and the two flag bytes. *)
Definition sequence_byte (o : outcome) : option Z :=
  match o with
  | Packet packet => packet !! 4%nat
  | _ => None
  end.

(** The two encoders of the repository. *)
Definition is_variant
    (create : encoder -> Z -> msg_info -> gmap string pyval -> outcome * encoder)
  : Prop :=
  create = Plain.create_mavlink_packet \/ create = Seeded.create_mavlink_packet.

(** ** Example inputs

    Message definitions and value dictionaries used as concrete inputs
    below. *)

(** A two-field sensor message. *)
Definition sensor_info : msg_info :=
  {| name := "SENSOR_DATA";
     fields := [("temperature", "uint8_t"); ("humidity", "uint8_t")] |}.

Definition sensor_data : gmap string pyval :=
  <["temperature" := VInt 21]> (<["humidity" := VInt 55]> ∅).

(** The same message with no entry for the temperature. *)
Definition humidity_only : gmap string pyval :=
  <["humidity" := VInt 55]> ∅.

(** A message with a field whose type string holds none of the tokens. *)
Definition labelled_info : msg_info :=
  {| name := "LABELLED";
     fields := [("sensor_id", "uint8_t"); ("label", "string"); ("status", "uint8_t")] |}.

Definition labelled_data : gmap string pyval :=
  <["sensor_id" := VInt 1]> (<["label" := VStr "x"]> (<["status" := VInt 2]> ∅)).

(** Thirty-two uint64 fields: 256 payload bytes. *)
Definition wide_names : list string :=
  [ "w00"; "w01"; "w02"; "w03"; "w04"; "w05"; "w06"; "w07";
    "w08"; "w09"; "w10"; "w11"; "w12"; "w13"; "w14"; "w15";
    "w16"; "w17"; "w18"; "w19"; "w20"; "w21"; "w22"; "w23";
    "w24"; "w25"; "w26"; "w27"; "w28"; "w29"; "w30"; "w31" ].

Definition wide_info : msg_info :=
  {| name := "WIDE"; fields := map (fun n => (n, "uint64_t")) wide_names |}.

Definition wide_data : gmap string pyval :=
  list_to_map (map (fun n => (n, VInt 0)) wide_names).

(** A message with one field of every recognized type. *)
Definition every_type_info : msg_info :=
  {| name := "EVERY_TYPE";
     fields :=
       [ ("a", "uint8_t"); ("b", "int8_t"); ("c", "uint16_t"); ("d", "int16_t");
         ("e", "uint32_t"); ("f", "int32_t"); ("g", "uint64_t"); ("h", "int64_t");
         ("i", "float"); ("j", "double"); ("k", "char") ] |}.

(** 1.5 as a [float] is the bit pattern 0x3FF8000000000000. *)
Definition every_type_data : gmap string pyval :=
  list_to_map
    [ ("a", VInt 200); ("b", VInt (-100)); ("c", VInt 60000); ("d", VInt (-30000));
      ("e", VInt 4000000000); ("f", VInt (-2000000000));
      ("g", VInt 18000000000000000000); ("h", VInt (-9000000000000000000));
      ("i", VFloat 0x3FF8000000000000); ("j", VFloat 0x3FF8000000000000);
      ("k", VStr "A") ].

(** The outcomes that come after [self.sequence] was advanced: a packet, or
    the [struct.error] of the header. *)
Definition advances (o : outcome) : bool :=
  match o with
  | Packet _ | Raised StructError => true
  | _ => false
  end.

(** A message of two one-character labels. *)
Definition two_labels_info : msg_info :=
  {| name := "LABELS"; fields := [("a", "char"); ("b", "char")] |}.

(** Four calls on one object: a good one, one with an out-of-range value,
    one with an oversized payload, and a good one again. *)
Definition mixed_calls : list (Z * msg_info * gmap string pyval) :=
  [ (50000, sensor_info, sensor_data);
    (50000, sensor_info, <["temperature" := VInt 300]> sensor_data);
    (50000, wide_info, wide_data);
    (50000, sensor_info, sensor_data) ].

(** Two values are packed alike under a format character: the same
    exception when the argument is built, or the same result of the
    packing. *)
Definition packs_alike (c : fmt) (v1 v2 : pyval) : Prop :=
  match argument c v1, argument c v2 with
  | inl e1, inl e2 => e1 = e2
  | inr a1, inr a2 => pack_one c a1 = pack_one c a2
  | _, _ => False
  end.

(** How a failure inside [struct.pack] leaves [create_mavlink_packet]: a
    [struct.error] is caught and turned into [None], anything else
    propagates. *)
Definition packing_failure (e : exn) : outcome :=
  match e with
  | StructError => ReturnedNone
  | _ => Raised e
  end.

(** ** Test data: [generate_data]

    Both programs fill the dictionary from the clock and the random number
    generator, choosing by keywords in the lower-cased field name and then
    by tokens in the type string. *)

(** [str.lower] on code points below 256: the ASCII capitals and the
    capitals of the Latin-1 block move up by 32. *)
Definition lower_char (a : ascii) : ascii :=
  let n := nat_of_ascii a in
  if ((65 <=? n) && (n <=? 90) || (192 <=? n) && (n <=? 222) && negb (n =? 215))%nat
  then ascii_of_nat (n + 32)
  else a.

Fixpoint lower (s : string) : string :=
  match s with
  | EmptyString => EmptyString
  | String a s' => String (lower_char a) (lower s')
  end.

(** What [generate_data] reads from outside the program, by the iteration
    [i] of its loop that asks: [int(time.time() * 1000)], [int(time.time())],
    [random.randint(a, b)], and the double
    [round(random.uniform(a, b), ndigits)] as its bit pattern. *)
Record world := {
  time_ms : nat -> Z;
  time_s : nat -> Z;
  randint : nat -> Z -> Z -> Z;
  rounded_uniform : nat -> Q -> Q -> Z -> Z
}.

(** The last branch of the keyword chain, the same in both programs. *)
Definition default_value (w : world) (i : nat) (field_type : string) : option pyval :=
  if contains "uint8" field_type then Some (VInt (randint w i 0 255))
  else if contains "int8" field_type then Some (VInt (randint w i (-128) 127))
  else if contains "uint16" field_type then Some (VInt (randint w i 0 65535))
  else if contains "int16" field_type then Some (VInt (randint w i (-32768) 32767))
  else if contains "uint32" field_type then Some (VInt (randint w i 0 1000000))
  else if contains "int32" field_type then Some (VInt (randint w i (-1000000) 1000000))
  else if contains "uint64" field_type then Some (VInt (time_ms w i))
  else if contains "int64" field_type then Some (VInt (time_ms w i))
  else if contains "float" field_type then Some (VFloat (rounded_uniform w i 0 100 4))
  else if contains "double" field_type then Some (VFloat (rounded_uniform w i 0 100 8))
  else if contains "char" field_type then Some (VStr "A")
  else None.

(** The branches for names that hold [timestamp] or [time], [temperature],
    [pressure] and [humidity], the same in both programs; [otherwise] is the
    rest of the chain. *)
Definition sensor_value (w : world) (i : nat) (lname field_type : string)
    (otherwise : option pyval) : option pyval :=
  if contains "timestamp" lname || contains "time" lname then
    if contains "uint64" field_type then Some (VInt (time_ms w i))
    else if contains "uint32" field_type then Some (VInt (time_s w i))
    else None
  else if contains "temperature" lname then
    if contains "float" field_type then Some (VFloat (rounded_uniform w i 20 30 2))
    else Some (VInt (randint w i 200 300))
  else if contains "pressure" lname then
    if contains "float" field_type then Some (VFloat (rounded_uniform w i 1000 1020 2))
    else Some (VInt (randint w i 100000 102000))
  else if contains "humidity" lname then
    if contains "float" field_type then Some (VFloat (rounded_uniform w i 40 60 2))
    else Some (VInt (randint w i 40 60))
  else otherwise.

(** The value one iteration stores under [field_name], if it stores one. *)
Module PlainData.

Definition field_value (w : world) (i : nat) (field_name field_type : string)
  : option pyval :=
  let lname := lower field_name in
  sensor_value w i lname field_type
    (if contains "latitude" lname then
       if contains "int32" field_type
       then Some (VInt (376500000 + randint w i (-10000) 10000))
       else None
     else if contains "longitude" lname then
       if contains "int32" field_type
       then Some (VInt (-1224300000 + randint w i (-10000) 10000))
       else None
     else if contains "altitude" lname then
       if contains "int32" field_type then Some (VInt (randint w i 0 50000)) else None
     else if contains "quality" lname || contains "percent" lname then
       if contains "uint8" field_type then Some (VInt (randint w i 0 100))
       else if contains "float" field_type
       then Some (VFloat (rounded_uniform w i 0 100 2))
       else None
     else if contains "status" lname || contains "flag" lname then
       if contains "uint8" field_type then Some (VInt (randint w i 0 3)) else None
     else if contains "id" lname then
       if contains "uint8" field_type || contains "uint16" field_type
       then Some (VInt (randint w i 1 255))
       else None
     else if contains "count" lname then
       if contains "uint8" field_type then Some (VInt (randint w i 1 20))
       else if contains "uint16" field_type then Some (VInt (randint w i 1 100))
       else None
     else if contains "voltage" lname then
       if contains "float" field_type
       then Some (VFloat (rounded_uniform w i (48 # 10) (52 # 10) 2))
       else None
     else if contains "current" lname then
       if contains "float" field_type
       then Some (VFloat (rounded_uniform w i (5 # 10) 2 2))
       else None
     else default_value w i field_type).

End PlainData.

Module SeededData.

Definition field_value (w : world) (i : nat) (field_name field_type : string)
  : option pyval :=
  sensor_value w i (lower field_name) field_type (default_value w i field_type).

End SeededData.

(** The loop [for field_name, field_type in fields], from iteration [i] on
    and with the dictionary built so far. *)
Fixpoint generate_from (field_value : world -> nat -> string -> string -> option pyval)
    (w : world) (i : nat) (fields : list (string * string))
    (data : gmap string pyval) : gmap string pyval :=
  match fields with
  | [] => data
  | (field_name, field_type) :: rest =>
      generate_from field_value w (S i) rest
        match field_value w i field_name field_type with
        | Some value => <[field_name := value]> data
        | None => data
        end
  end.

Definition generate_data (field_value : world -> nat -> string -> string -> option pyval)
    (w : world) (fields : list (string * string)) : gmap string pyval :=
  generate_from field_value w 0 fields ∅.

(** The two programs: each pairs its own [generate_data] with its own
    [create_mavlink_packet]. *)
Inductive program := plain_program | seeded_program.

Definition field_value_of (p : program)
  : world -> nat -> string -> string -> option pyval :=
  match p with
  | plain_program => PlainData.field_value
  | seeded_program => SeededData.field_value
  end.

Definition create_of (p : program)
  : encoder -> Z -> msg_info -> gmap string pyval -> outcome * encoder :=
  match p with
  | plain_program => Plain.create_mavlink_packet
  | seeded_program => Seeded.create_mavlink_packet
  end.

(** One round of the callers' loops: test data, then the packet. *)
Definition generate_packet (p : program) (w : world) (self : encoder)
    (message_id : Z) (info : msg_info) : outcome * encoder :=
  create_of p self message_id info (generate_data (field_value_of p) w (fields info)).

(** The keywords each program looks for in a lower-cased field name. *)
Definition sensor_keywords : list string :=
  ["timestamp"; "time"; "temperature"; "pressure"; "humidity"].

Definition keywords_of (p : program) : list string :=
  match p with
  | plain_program =>
      sensor_keywords
      ++ ["latitude"; "longitude"; "altitude"; "quality"; "percent"; "status";
          "flag"; "id"; "count"; "voltage"; "current"]
  | seeded_program => sensor_keywords
  end.

(** What the clock and the random number generator promise:
    [randint(a, b)] lies between its bounds, the clock in milliseconds is a
    non-negative signed 64-bit number, every rounded sample has a finite
    binary32 rounding. *)
Definition randint_in_bounds (w : world) : Prop :=
  forall i a b, a <= b -> a <= randint w i a b <= b.

Definition clock_fits (w : world) : Prop :=
  forall i, 0 <= time_ms w i <= 9223372036854775807.

Definition samples_fit (w : world) : Prop :=
  forall i a b ndigits, in_range fmt_f (VFloat (rounded_uniform w i a b ndigits)) = true.

(** A world that always answers with the lower bound, at clock 1.7e12 ms. *)
Definition low_world : world :=
  {| time_ms := fun _ => 1700000000000;
     time_s := fun _ => 1700000000;
     randint := fun _ a _ => a;
     rounded_uniform := fun _ _ _ _ => 0x4034000000000000 |}.
(** ** The hex dump of [generate_from_xml]

    What the plain program prints for a packet it got back: the packet as
    hex pairs, cut into start byte, header, payload and checksum. *)

(** [binascii.hexlify(packet).decode('ascii')]: two lower-case hex digits
    per byte. *)
Definition hex_digit (n : Z) : ascii :=
  nth (Z.to_nat n) (list_ascii_of_string "0123456789abcdef") "0"%char.

Definition hex_pair (b : Z) : string :=
  String (hex_digit (b / 16)) (String (hex_digit (b mod 16)) EmptyString).

Fixpoint hexlify (packet : list Z) : string :=
  match packet with
  | [] => EmptyString
  | b :: rest =>
      String (hex_digit (b / 16)) (String (hex_digit (b mod 16)) (hexlify rest))
  end.

(** [range(start, stop, step)] for a positive step. *)
Definition py_range (start stop step : nat) : list nat :=
  map (fun k => start + k * step)%nat (seq 0 ((stop - start + step - 1) / step)).

(** [l[i:j]] for indices that are not negative. *)
Definition slice {A : Type} (i j : nat) (l : list A) : list A :=
  take (j - i) (drop i l).

(** [[hex_str[i:i+2] for i in range(0, len(hex_str), 2)]]. *)
Definition bytes_list (hex_str : string) : list string :=
  map (fun i => substring i 2 hex_str) (py_range 0 (String.length hex_str) 2).

(** [' '.join(l)]. *)
Definition join (l : list string) : string := String.concat " " l.

Definition newline : string := String (ascii_of_nat 10) EmptyString.

(** The lines printed for the header slice: its first eight pairs, then
    the rest if there are more. *)
Definition header_lines (hdr : list string) : list string :=
  ("    Header:  " +:+ join (take 8 hdr))
  :: (if (8 <? length hdr)%nat then ["            " +:+ join (drop 8 hdr)] else []).

(** The payload slice as it is cut for printing: at most eight pairs on
    the first line, then [payload_bytes[i:i+8]] for
    [i in range(8, len(payload_bytes), 8)]. *)
Definition first_chunk {A : Type} (payload_bytes : list A) : list A :=
  take (Nat.min 8 (length payload_bytes)) payload_bytes.

Definition more_chunks {A : Type} (payload_bytes : list A) : list (list A) :=
  if (8 <? length payload_bytes)%nat
  then map (fun i => slice i (i + 8) payload_bytes)
         (py_range 8 (length payload_bytes) 8)
  else [].

(** Nothing is printed for an empty payload slice. *)
Definition payload_lines (payload_bytes : list string) : list string :=
  match payload_bytes with
  | [] => []
  | _ =>
      ("    Payload: " +:+ join (first_chunk payload_bytes))
      :: map (fun chunk => "            " +:+ join chunk) (more_chunks payload_bytes)
  end.

Definition crc_line (crc_bytes : list string) : string :=
  "    CRC:     " +:+ join crc_bytes.

Definition title_line (packet : list Z) : string :=
  newline +:+ "  MAVLink 2 packet ("
  +:+ NilZero.string_of_uint (Nat.to_uint (length packet)) +:+ " bytes):".

Definition raw_line (hex_str : string) : string :=
  newline +:+ "  Raw hex: " +:+ hex_str.

Definition c_array_line (pairs : list string) : string :=
  newline +:+ "  C array: {0x" +:+ String.concat ", 0x" pairs +:+ "}".

(** The body of [if packet:], as the list of printed strings (one per
    [print]) and the exception that ends it, if any: [packet[1]] is read
    without a test of the length. An empty [bytes] object is false and
    prints nothing. *)
Definition hex_dump (packet : list Z) : list string * option exn :=
  match packet with
  | [] => ([], None)
  | _ =>
      let hex_str := hexlify packet in
      let pairs := bytes_list hex_str in
      let printed :=
        [title_line packet; "    STX:     " +:+ default EmptyString (pairs !! 0%nat)]
        ++ (if (10 <? length pairs)%nat then header_lines (slice 1 11 pairs) else [])
      in
      match packet !! 1%nat with
      | None => (printed, Some IndexError)
      | Some payload_len =>
          (printed
           ++ (if (11 <? length pairs)%nat
               then payload_lines (slice 11 (11 + Z.to_nat payload_len) pairs)
               else [])
           ++ (if (2 <=? length pairs)%nat
               then [crc_line (drop (length pairs - 2) pairs)]
               else [])
           ++ [raw_line hex_str; c_array_line pairs],
           None)
      end
  end.

(** The bytes [first], [first + 1], ... as an example payload. *)
Definition seq_bytes (first : Z) (count : nat) : list Z :=
  map (fun k => first + Z.of_nat k) (seq 0 count).

(** * Properties of the checksum *)

Lemma fold_left_step {A B : Type} (f : A -> B -> A) (b : B) (l : list B) (a : A) :
  fold_left f (b :: l) a = fold_left f l (f a b).
Proof. reflexivity. Qed.

Section CrcRounds.
Import Crc.

Lemma land_bit15 (r : Z) :
  Z.land r 0x8000 = if Z.testbit r 15 then 0x8000 else 0.
Proof.
  apply Z.bits_inj'. intros n Hn.
  rewrite Z.land_spec.
  change 0x8000 with (2 ^ 15).
  rewrite Z.pow2_bits_eqb by lia.
  destruct (Z.eqb_spec 15 n) as [<- | Hne].
  - rewrite andb_true_r. destruct (Z.testbit r 15).
    + now rewrite Z.pow2_bits_true.
    + now rewrite Z.bits_0.
  - rewrite andb_false_r. destruct (Z.testbit r 15).
    + now rewrite Z.pow2_bits_false.
    + now rewrite Z.bits_0.
Qed.

Lemma lxor_mod_pow2 (a b n : Z) :
  0 <= n -> Z.lxor a b mod 2 ^ n = Z.lxor (a mod 2 ^ n) (b mod 2 ^ n).
Proof.
  intros Hn. apply Z.bits_inj'. intros i Hi.
  rewrite Z.lxor_spec, !Z.testbit_mod_pow2, Z.lxor_spec by lia.
  now destruct (i <? n).
Qed.

(** The code's round and the round of the specification agree on every
    integer. *)
Lemma crc_round_reference (r : Z) : crc_round r = reference_round r.
Proof.
  unfold crc_round, reference_round.
  rewrite land_bit15.
  change 0xFFFF with (Z.ones 16).
  rewrite Z.land_ones by lia.
  rewrite Z.shiftl_mul_pow2 by lia.
  replace (r * 2 ^ 1) with (2 * r) by lia.
  now destruct (Z.testbit r 15).
Qed.

Lemma crc_round_range (r : Z) : 0 <= crc_round r < 2 ^ 16.
Proof.
  rewrite crc_round_reference. unfold reference_round.
  apply Z.mod_pos_bound. lia.
Qed.

(** A round only reads the low sixteen bits. *)
Lemma crc_round_low16 (r : Z) : crc_round (r mod 2 ^ 16) = crc_round r.
Proof.
  rewrite !crc_round_reference. unfold reference_round.
  rewrite Z.mod_pow2_bits_low by lia.
  destruct (Z.testbit r 15).
  - rewrite (lxor_mod_pow2 (2 * r)), (lxor_mod_pow2 (2 * (r mod 2 ^ 16))) by lia.
    f_equal. rewrite Z.mul_mod_idemp_r by lia. reflexivity.
  - rewrite Z.mul_mod_idemp_r by lia. reflexivity.
Qed.

Lemma bit15_cases (r : Z) :
  0 <= r < 2 ^ 16 ->
  if Z.testbit r 15 then 2 ^ 15 <= r else r < 2 ^ 15.
Proof.
  intros Hr.
  pose proof (Z.div_mod r (2 ^ 15) ltac:(lia)).
  pose proof (Z.mod_pos_bound r (2 ^ 15) ltac:(lia)).
  assert (0 <= r / 2 ^ 15 < 2)
    by (split; [apply Z.div_pos; lia | apply Z.div_lt_upper_bound; lia]).
  destruct (Z.testbit r 15) eqn:Hb.
  - apply Z.testbit_true in Hb; [|lia]. rewrite Z.mod_small in Hb by lia. lia.
  - apply Z.testbit_false in Hb; [|lia]. rewrite Z.mod_small in Hb by lia. lia.
Qed.

(** On sixteen-bit registers a round can be undone. *)
Lemma crc_unround_round (r : Z) :
  0 <= r < 2 ^ 16 -> crc_unround (crc_round r) = r.
Proof.
  intros Hr. rewrite crc_round_reference.
  unfold reference_round, crc_unround.
  pose proof (bit15_cases r Hr) as Hb.
  destruct (Z.testbit r 15).
  - set (x := Z.lxor (2 * r) 0x1021).
    assert (Hlow : Z.testbit (x mod 2 ^ 16) 0 = true).
    { rewrite Z.mod_pow2_bits_low by lia. unfold x.
      rewrite Z.lxor_spec, Z.testbit_even_0. reflexivity. }
    rewrite Hlow.
    assert (Hx : Z.lxor (x mod 2 ^ 16) 0x1021 = 2 * r - 2 ^ 16).
    { change 0x1021 with (0x1021 mod 2 ^ 16).
      rewrite <- lxor_mod_pow2 by lia. unfold x.
      rewrite Z.lxor_assoc, Z.lxor_nilpotent, Z.lxor_0_r.
      symmetry. apply Z.mod_unique with (q := 1); lia. }
    rewrite Hx, Z.shiftr_div_pow2 by lia.
    replace ((2 * r - 2 ^ 16) / 2 ^ 1) with (r - 2 ^ 15)
      by (apply Z.div_unique with (r := 0); lia).
    pose proof (Z.add_lor_land (r - 2 ^ 15) 0x8000) as Hadd.
    assert (Hdisj : Z.land (r - 2 ^ 15) 0x8000 = 0).
    { rewrite land_bit15.
      replace (Z.testbit (r - 2 ^ 15) 15) with false; [reflexivity|].
      symmetry. apply Z.testbit_false; [lia|].
      rewrite Z.div_small by lia. reflexivity. }
    lia.
  - rewrite Z.mod_small by lia.
    rewrite Z.testbit_even_0, Z.shiftr_div_pow2 by lia.
    symmetry. apply Z.div_unique with (r := 0); lia.
Qed.

Lemma crc_rounds_range (n : nat) (r : Z) :
  0 <= r < 2 ^ 16 -> 0 <= Nat.iter n crc_round r < 2 ^ 16.
Proof. destruct n; [trivial | intros _; apply crc_round_range]. Qed.

Lemma crc_rounds_low16 (n : nat) (r : Z) :
  Nat.iter (S n) crc_round (r mod 2 ^ 16) = Nat.iter (S n) crc_round r.
Proof.
  induction n as [|n IH]; [apply crc_round_low16|].
  change (crc_round (Nat.iter (S n) crc_round (r mod 2 ^ 16))
          = crc_round (Nat.iter (S n) crc_round r)).
  now rewrite IH.
Qed.

Lemma crc_unrounds_rounds (n : nat) (r : Z) :
  0 <= r < 2 ^ 16 -> Nat.iter n crc_unround (Nat.iter n crc_round r) = r.
Proof.
  intros Hr. induction n as [|n IH]; [reflexivity|].
  rewrite (Nat.iter_succ_r n crc_unround).
  change (Nat.iter (S n) crc_round r) with (crc_round (Nat.iter n crc_round r)).
  rewrite crc_unround_round by (apply crc_rounds_range; exact Hr).
  exact IH.
Qed.

Lemma crc_byte_range (r b : Z) : 0 <= crc_byte r b < 2 ^ 16.
Proof. unfold crc_byte. cbn [Nat.iter]. apply crc_round_range. Qed.

(** The byte update only reads the low eight bits of the byte. *)
Lemma crc_byte_masks (r b : Z) :
  0 <= r < 2 ^ 16 ->
  crc_byte r b = Nat.iter 8 crc_round (Z.lxor r ((b mod 2 ^ 8) * 2 ^ 8)).
Proof.
  intros Hr. unfold crc_byte.
  rewrite <- crc_rounds_low16, lxor_mod_pow2 by lia.
  rewrite (Z.mod_small r) by lia.
  rewrite Z.shiftl_mul_pow2 by lia.
  replace ((b * 2 ^ 8) mod 2 ^ 16) with ((b mod 2 ^ 8) * 2 ^ 8); [reflexivity|].
  change (2 ^ 16) with (2 ^ 8 * 2 ^ 8).
  rewrite Z.mul_mod_distr_r by lia. reflexivity.
Qed.

Lemma lxor_range16 (r k : Z) :
  0 <= r < 2 ^ 16 -> 0 <= k < 2 ^ 16 -> 0 <= Z.lxor r k < 2 ^ 16.
Proof.
  intros Hr Hk.
  assert (Z.lxor r k = Z.lxor r k mod 2 ^ 16) as ->.
  { rewrite lxor_mod_pow2, !Z.mod_small by lia. reflexivity. }
  apply Z.mod_pos_bound. lia.
Qed.

(** The byte update is injective in the register. *)
Lemma crc_byte_inj (b r1 r2 : Z) :
  0 <= r1 < 2 ^ 16 -> 0 <= r2 < 2 ^ 16 ->
  crc_byte r1 b = crc_byte r2 b -> r1 = r2.
Proof.
  intros H1 H2 Heq.
  rewrite !crc_byte_masks in Heq by assumption.
  pose proof (Z.mod_pos_bound b (2 ^ 8) ltac:(lia)) as Hb.
  set (k := b mod 2 ^ 8 * 2 ^ 8) in *.
  assert (Hk : 0 <= k < 2 ^ 16) by (unfold k; lia).
  apply (f_equal (Nat.iter 8 crc_unround)) in Heq.
  rewrite !crc_unrounds_rounds in Heq by (apply lxor_range16; assumption).
  apply (f_equal (fun x => Z.lxor x k)) in Heq.
  now rewrite !Z.lxor_assoc, !Z.lxor_nilpotent, !Z.lxor_0_r in Heq.
Qed.

(** No first byte leaves the initial register in place: undoing the eight
    rounds from 0xFFFF gives 0x1E0C, whose low byte is not 0xFF. *)
Lemma crc_byte_moves_init (e : Z) : crc_byte 0xFFFF e <> 0xFFFF.
Proof.
  intros Heq. rewrite crc_byte_masks in Heq by lia.
  pose proof (Z.mod_pos_bound e (2 ^ 8) ltac:(lia)) as He.
  set (k := e mod 2 ^ 8 * 2 ^ 8) in *.
  assert (Hk : 0 <= k < 2 ^ 16) by (unfold k; lia).
  apply (f_equal (Nat.iter 8 crc_unround)) in Heq.
  rewrite crc_unrounds_rounds in Heq by (apply lxor_range16; lia).
  apply (f_equal (fun x => Z.lxor 0xFFFF x mod 2 ^ 8)) in Heq.
  rewrite <- Z.lxor_assoc, Z.lxor_nilpotent, Z.lxor_0_l in Heq.
  unfold k in Heq. rewrite Z.mod_mul in Heq by lia.
  vm_compute in Heq. discriminate.
Qed.

Lemma fold_crc_byte_range (data : list Z) (r : Z) :
  0 <= r < 2 ^ 16 -> 0 <= fold_left crc_byte data r < 2 ^ 16.
Proof.
  revert r. induction data as [|b data IH]; intros r Hr; [exact Hr|].
  rewrite fold_left_step. apply IH, crc_byte_range.
Qed.

Lemma fold_crc_byte_inj (data : list Z) (r1 r2 : Z) :
  0 <= r1 < 2 ^ 16 -> 0 <= r2 < 2 ^ 16 ->
  fold_left crc_byte data r1 = fold_left crc_byte data r2 -> r1 = r2.
Proof.
  revert r1 r2.
  induction data as [|b data IH]; intros r1 r2 H1 H2 Heq; [exact Heq|].
  rewrite !fold_left_step in Heq.
  apply IH in Heq; try apply crc_byte_range.
  eapply crc_byte_inj; eassumption.
Qed.

(** [calculate_crc] is the plain loop started from the register left by
    the extra byte. *)
Lemma calculate_crc_fold (data : list Z) (e : Z) :
  calculate_crc data e = fold_left crc_byte data (crc_byte 0xFFFF e).
Proof. reflexivity. Qed.

Lemma plain_crc_range (data : list Z) : 0 <= plain_crc data < 2 ^ 16.
Proof. apply fold_crc_byte_range. lia. Qed.

Lemma calculate_crc_range (data : list Z) (e : Z) :
  0 <= calculate_crc data e < 2 ^ 16.
Proof. rewrite calculate_crc_fold. apply fold_crc_byte_range, crc_byte_range. Qed.

(** Whatever the first byte, dropping it changes the checksum. *)
Lemma plain_crc_cons_differs (b : Z) (data : list Z) :
  plain_crc (b :: data) <> plain_crc data.
Proof.
  unfold plain_crc. rewrite fold_left_step. intros Heq.
  apply fold_crc_byte_inj in Heq; [| apply crc_byte_range | lia].
  exact (crc_byte_moves_init b Heq).
Qed.

Lemma crc_rounds_reference (n : nat) (x : Z) :
  Nat.iter n crc_round x = Nat.iter n reference_round x.
Proof.
  induction n as [|n IH]; [reflexivity|].
  now rewrite !Nat.iter_succ, IH, crc_round_reference.
Qed.

Lemma crc_byte_reference (r b : Z) : crc_byte r b = reference_absorb r b.
Proof.
  unfold crc_byte, reference_absorb.
  rewrite Z.shiftl_mul_pow2 by lia.
  apply crc_rounds_reference.
Qed.

Lemma fold_crc_byte_reference (data : list Z) (r : Z) :
  fold_left crc_byte data r = fold_left reference_absorb data r.
Proof.
  revert r. induction data as [|b data IH]; intros r; [reflexivity|].
  now rewrite !fold_left_step, crc_byte_reference, IH.
Qed.

End CrcRounds.

Section ChecksumClaims.
Import Crc.

(** C5. For every byte sequence the checksum equals the CRC-16 reference
    definition of the specification: register 0xFFFF, per byte an XOR of
    the byte shifted left by 8 followed by 8 rounds of conditional
    shift-and-XOR with 0x1021, masked to 16 bits after every round. The
    plain loop is the reference on its input bytes; [calculate_crc] is the
    reference on the extra byte followed by the data bytes; and the two
    encoders apply them to [header[1:] + payload]. *)
Theorem checksum_is_reference_crc16 (data : list Z) :
  plain_crc data = reference_crc16 data
  /\ (forall crc_extra, calculate_crc data crc_extra = reference_crc16 (crc_extra :: data))
  /\ (forall message_id header payload,
        Plain.checksum message_id header payload
        = reference_crc16 (drop 1 header ++ payload)
        /\ Seeded.checksum message_id header payload
           = reference_crc16 (select_crc_extra message_id :: drop 1 header ++ payload)).
Proof.
  assert (Href : forall l, plain_crc l = reference_crc16 l)
    by (intros l; apply fold_crc_byte_reference).
  assert (Hseed : forall l e, calculate_crc l e = reference_crc16 (e :: l)).
  { intros l e. rewrite calculate_crc_fold. unfold reference_crc16.
    rewrite fold_left_step.
    now rewrite fold_crc_byte_reference, crc_byte_reference. }
  split; [apply Href|]. split; [apply Hseed|].
  intros message_id header payload. split.
  - apply Href.
  - apply Hseed.
Qed.

(** C6. The CRC-extra byte selected for a message is 50 for id 0, 124 for
    id 1, 39 for id 30, 104 for id 33, 142 for id 74, 83 for id 253, 170
    for id 251; [(id & 0xFF) XOR ((id >> 8) & 0xFF)] for every id at or
    above 50000; and 0 for every other id. *)
Theorem crc_extra_selection :
  select_crc_extra 0 = 50
  /\ select_crc_extra 1 = 124
  /\ select_crc_extra 30 = 39
  /\ select_crc_extra 33 = 104
  /\ select_crc_extra 74 = 142
  /\ select_crc_extra 253 = 83
  /\ select_crc_extra 251 = 170
  /\ (forall id, 50000 <= id ->
        select_crc_extra id
        = Z.lxor (Z.land id 0xFF) (Z.land (Z.shiftr id 8) 0xFF))
  /\ (forall id, id < 50000 -> id ∉ [0; 1; 30; 33; 74; 253; 251] ->
        select_crc_extra id = 0).
Proof.
  do 7 (split; [vm_compute; reflexivity|]). split.
  - intros id Hid. unfold select_crc_extra.
    destruct (Z.ltb_spec id 50000); [lia | reflexivity].
  - intros id Hid Hnot. unfold select_crc_extra.
    destruct (Z.ltb_spec id 50000); [|lia].
    unfold get_standard_crc_extra, crc_extras.
    repeat (apply not_elem_of_cons in Hnot as [? Hnot]).
    cbn [list_to_map foldr uncurry fst snd].
    rewrite !lookup_insert_ne by congruence.
    now rewrite lookup_empty.
Qed.

Lemma crc_extra_selection_witness :
  select_crc_extra 50001 = 146 /\ select_crc_extra 7 = 0.
Proof.
  destruct crc_extra_selection as (_ & _ & _ & _ & _ & _ & _ & Hhigh & Hrest).
  split.
  - rewrite (Hhigh 50001); [vm_compute; reflexivity | lia].
  - apply (Hrest 7); [lia|].
    intros Hin. repeat (apply elem_of_cons in Hin as [Hin|Hin]; [discriminate|]).
    now apply elem_of_nil in Hin.
Defined.

(** C7. For every byte sequence and every [crc_extra] other than 0, the
    seeded checksum, which absorbs the extra byte through the per-byte
    update before the data bytes, differs from the unseeded checksum of
    the same bytes. *)
Theorem seeded_differs_from_unseeded (data : list Z) (crc_extra : Z) :
  crc_extra <> 0 -> calculate_crc data crc_extra <> plain_crc data.
Proof.
  intros _ Heq. rewrite calculate_crc_fold in Heq. unfold plain_crc in Heq.
  apply fold_crc_byte_inj in Heq; [| apply crc_byte_range | lia].
  exact (crc_byte_moves_init crc_extra Heq).
Qed.

Lemma seeded_differs_from_unseeded_witness :
  calculate_crc [1; 2; 3] 50 <> plain_crc [1; 2; 3].
Proof. apply (seeded_differs_from_unseeded [1; 2; 3] 50). discriminate. Defined.

(** C10. With [crc_extra = 0] the seeded checksum still differs from the
    unseeded one on every byte sequence: absorbing the zero byte moves the
    register from 0xFFFF (to 0xE1F0), and the per-byte update is injective
    in the sixteen-bit register. *)
Theorem zero_seed_still_differs :
  crc_byte 0xFFFF 0 = 0xE1F0
  /\ (forall byte r1 r2,
        0 <= r1 < 2 ^ 16 -> 0 <= r2 < 2 ^ 16 ->
        crc_byte r1 byte = crc_byte r2 byte -> r1 = r2)
  /\ (forall data, calculate_crc data 0 <> plain_crc data).
Proof.
  split; [vm_compute; reflexivity|]. split; [exact crc_byte_inj|].
  intros data Heq. rewrite calculate_crc_fold in Heq. unfold plain_crc in Heq.
  apply fold_crc_byte_inj in Heq; [| apply crc_byte_range | lia].
  exact (crc_byte_moves_init 0 Heq).
Qed.

Lemma zero_seed_still_differs_witness :
  crc_byte 0xFFFF 65 <> crc_byte 0x1234 65
  /\ calculate_crc [0; 0; 0; 100; 190; 0; 0; 0; 0] 0
     <> plain_crc [0; 0; 0; 100; 190; 0; 0; 0; 0].
Proof.
  destruct zero_seed_still_differs as (_ & Hinj & Hdiff).
  split; [|apply Hdiff].
  intros Heq. apply (Hinj 65 0xFFFF 0x1234) in Heq; [discriminate | lia | lia].
Defined.

End ChecksumClaims.

(** * Properties of the payload and of the frame *)

Section Packing.

Lemma le_bytes_length (w : nat) (n : Z) : length (le_bytes w n) = w.
Proof. revert n. induction w as [|w IH]; intros n; cbn; [reflexivity | now rewrite IH]. Qed.

Lemma int_format_width (c : fmt) (w : nat) (lo hi : Z) :
  int_format c = Some (w, lo, hi) -> w = wireWidth c.
Proof. destruct c; cbn; intros [= <- <- <-]; reflexivity. Qed.

(** A packed argument takes the width the specification gives its type. *)
Lemma pack_one_length (c : fmt) (v : pyval) (bs : list Z) :
  pack_one c v = inr bs -> length bs = wireWidth c.
Proof.
  unfold pack_one. destruct (int_format c) as [[[w lo] hi]|] eqn:Hfmt.
  - apply int_format_width in Hfmt as ->.
    destruct v as [n| | |]; try discriminate.
    destruct ((lo <=? n) && (n <=? hi)); [|discriminate].
    intros [= <-]. apply le_bytes_length.
  - destruct c; try discriminate.
    + destruct (as_double v) as [e|bits]; [discriminate|].
      destruct (Ieee.float32_of_double bits); [destruct v; discriminate|].
      intros [= <-]. reflexivity.
    + destruct (as_double v) as [e|bits]; [discriminate|].
      intros [= <-]. reflexivity.
    + destruct v as [| | |[|x [|]]]; try discriminate.
      now intros [= <-].
Qed.

Lemma struct_pack_length (format : list fmt) (values : list pyval) (bs : list Z) :
  struct_pack format values = inr bs ->
  length bs = list_sum (map wireWidth format).
Proof.
  revert values bs.
  induction format as [|c format IH]; intros [|v values] bs; cbn; try discriminate.
  - now intros [= <-].
  - destruct (pack_one c v) as [e|b1] eqn:H1; [discriminate|].
    destruct (struct_pack format values) as [e|rest] eqn:H2; [discriminate|].
    intros [= <-]. rewrite length_app.
    now rewrite (pack_one_length _ _ _ H1), (IH _ _ H2).
Qed.

(** The only failure of [str] is the digit limit of an [int]. *)
Lemma py_str_error (v : pyval) (e : exn) :
  py_str v = inl e ->
  e = ValueError
  /\ exists n, v = VInt n
       /\ (int_max_str_digits
           < String.length (NilZero.string_of_uint (N.to_uint (Z.abs_N n))))%nat.
Proof.
  unfold py_str. destruct v as [n|bits|s|bs]; try discriminate.
  destruct (Nat.leb_spec
              (String.length (NilZero.string_of_uint (N.to_uint (Z.abs_N n))))
              int_max_str_digits) as [Hle|Hgt]; [discriminate|].
  intros [= <-]. split; [reflexivity|]. now exists n.
Qed.

(** *** The digit limit of [str]

    [str] counts the digits it is about to print; the lemmas below turn
    the count into a bound on the number itself. *)

Lemma usize_nb_digits (d : Decimal.uint) :
  DecimalPos.Unsigned.usize d = N.of_nat (Decimal.nb_digits d).
Proof.
  induction d; cbn [DecimalPos.Unsigned.usize Decimal.nb_digits];
    rewrite ?IHd, ?Nat2N.inj_succ; reflexivity.
Qed.

Lemma string_of_uint_length (d : Decimal.uint) :
  d <> Decimal.Nil ->
  String.length (NilZero.string_of_uint d) = Decimal.nb_digits d.
Proof.
  assert (Hne : forall u, String.length (NilEmpty.string_of_uint u)
                          = Decimal.nb_digits u).
  { induction u; cbn; congruence. }
  intros Hd. destruct d; try contradiction; apply Hne.
Qed.

(** The value of a digit string, most significant digit first. *)
Lemma of_uint_digit (acc : positive) (l : Decimal.uint) :
  N.pos (Pos.of_uint_acc l acc)
  = (N.of_uint l + N.pos acc * 10 ^ DecimalPos.Unsigned.usize l)%N.
Proof.
  rewrite DecimalPos.Unsigned.of_uint_acc_rev. unfold N.of_uint.
  now rewrite DecimalPos.Unsigned.of_uint_alt.
Qed.

Lemma of_uint_upper (d : Decimal.uint) :
  (N.of_uint d < 10 ^ DecimalPos.Unsigned.usize d)%N.
Proof.
  induction d as [|l IH|l IH|l IH|l IH|l IH|l IH|l IH|l IH|l IH|l IH];
    [reflexivity|..];
    cbn [DecimalPos.Unsigned.usize]; rewrite N.pow_succ_r';
    [ change (N.of_uint (Decimal.D0 l)) with (N.of_uint l); lia
    | unfold N.of_uint; cbn [Pos.of_uint]; rewrite of_uint_digit; lia .. ].
Qed.

Lemma of_uint_lower (d : Decimal.uint) :
  Decimal.nzhead d = d -> d <> Decimal.Nil ->
  (10 ^ N.pred (DecimalPos.Unsigned.usize d) <= N.of_uint d)%N.
Proof.
  intros Hnz Hnil.
  destruct d as [|l|l|l|l|l|l|l|l|l|l]; [contradiction|..];
    cbn [DecimalPos.Unsigned.usize]; rewrite N.pred_succ.
  - exfalso. cbn [Decimal.nzhead] in Hnz.
    pose proof (nb_digits_nzhead l) as Hle. rewrite Hnz in Hle. cbn in Hle. lia.
  - unfold N.of_uint; cbn [Pos.of_uint]; rewrite of_uint_digit; lia.
  - unfold N.of_uint; cbn [Pos.of_uint]; rewrite of_uint_digit; lia.
  - unfold N.of_uint; cbn [Pos.of_uint]; rewrite of_uint_digit; lia.
  - unfold N.of_uint; cbn [Pos.of_uint]; rewrite of_uint_digit; lia.
  - unfold N.of_uint; cbn [Pos.of_uint]; rewrite of_uint_digit; lia.
  - unfold N.of_uint; cbn [Pos.of_uint]; rewrite of_uint_digit; lia.
  - unfold N.of_uint; cbn [Pos.of_uint]; rewrite of_uint_digit; lia.
  - unfold N.of_uint; cbn [Pos.of_uint]; rewrite of_uint_digit; lia.
  - unfold N.of_uint; cbn [Pos.of_uint]; rewrite of_uint_digit; lia.
Qed.

(** The digits printed for a positive number have no leading zero. *)
Lemma to_uint_nzhead (p : positive) :
  Decimal.nzhead (Pos.to_uint p) = Pos.to_uint p.
Proof.
  pose proof (DecimalPos.Unsigned.to_of (Pos.to_uint p)) as Hnorm.
  rewrite DecimalPos.Unsigned.of_to in Hnorm. cbn [N.to_uint] in Hnorm.
  pose proof (DecimalPos.Unsigned.to_uint_nonzero p) as Hnz.
  unfold Decimal.unorm in Hnorm.
  destruct (Decimal.nzhead (Pos.to_uint p)); congruence.
Qed.

(** The number of digits printed for [m] is at most [k] exactly when
    [m < 10^k]. *)
Lemma digits_within (m : N) (k : nat) :
  (1 <= k)%nat ->
  (String.length (NilZero.string_of_uint (N.to_uint m)) <=? k)%nat
  = (Z.of_N m <? 10 ^ Z.of_nat k).
Proof.
  intros Hk.
  assert (Hpow : forall a b : N, (a <= b)%N -> (10 ^ a <= 10 ^ b)%N)
    by (intros a b Hab; apply N.pow_le_mono_r; lia).
  assert (Hz : 10 ^ Z.of_nat k = Z.of_N (10 ^ N.of_nat k)).
  { rewrite N2Z.inj_pow, nat_N_Z. reflexivity. }
  rewrite Hz. clear Hz.
  destruct m as [|p].
  - cbn [N.to_uint NilZero.string_of_uint NilEmpty.string_of_uint String.length].
    pose proof (Hpow 0%N (N.of_nat k) ltac:(lia)) as H0. rewrite N.pow_0_r in H0.
    destruct (Nat.leb_spec 1 k); [|lia].
    symmetry. apply Z.ltb_lt. lia.
  - cbn [N.to_uint].
    pose proof (DecimalPos.Unsigned.to_uint_nonnil p) as Hnil.
    pose proof (to_uint_nzhead p) as Hnz.
    pose proof (of_uint_upper (Pos.to_uint p)) as Hup.
    pose proof (of_uint_lower (Pos.to_uint p) Hnz Hnil) as Hlo.
    unfold N.of_uint in Hup, Hlo. rewrite DecimalPos.Unsigned.of_to in Hup, Hlo.
    rewrite string_of_uint_length by exact Hnil.
    rewrite usize_nb_digits in Hup, Hlo.
    set (len := Decimal.nb_digits (Pos.to_uint p)) in *.
    destruct (Nat.leb_spec len k) as [Hle|Hgt]; symmetry.
    + apply Z.ltb_lt. pose proof (Hpow (N.of_nat len) (N.of_nat k) ltac:(lia)). lia.
    + apply Z.ltb_ge.
      pose proof (Hpow (N.of_nat k) (N.pred (N.of_nat len)) ltac:(lia)). lia.
Qed.

(** [str] of an [int]: refused from 10^4300 on, in either sign. *)
Lemma py_str_int (n : Z) :
  py_str (VInt n)
  = if Z.abs n <? 10 ^ Z.of_nat int_max_str_digits
    then inr (NilZero.string_of_int (Z.to_int n))
    else inl ValueError.
Proof.
  unfold py_str. cbv zeta.
  rewrite digits_within by (unfold int_max_str_digits; lia).
  now rewrite N2Z.inj_abs_N.
Qed.

(** The digit limit of [str] at its edge: every [int] below 10^4300 in
    absolute value is printed, every other one refused. *)
Lemma py_str_digit_limit (n : Z) :
  (Z.abs n < 10 ^ 4300 -> py_str (VInt n) = inr (NilZero.string_of_int (Z.to_int n)))
  /\ (10 ^ 4300 <= Z.abs n -> py_str (VInt n) = inl ValueError).
Proof.
  rewrite py_str_int.
  change (Z.of_nat int_max_str_digits) with 4300.
  set (limit := 10 ^ 4300).
  destruct (Z.ltb_spec (Z.abs n) limit); split; intros; try reflexivity; lia.
Qed.

(** The string of an [int] starts with a digit or a minus sign. *)
Lemma string_of_int_head (n : Z) :
  exists a s,
    NilZero.string_of_int (Z.to_int n) = String a s
    /\ (Z.of_nat (nat_of_ascii a) <? 128) = true.
Proof.
  assert (Huint : forall d, d <> Decimal.Nil ->
            exists a s, NilZero.string_of_uint d = String a s
                        /\ (Z.of_nat (nat_of_ascii a) <? 128) = true).
  { intros d Hd. destruct d; try contradiction;
      eexists _, _; (split; [reflexivity|]); reflexivity. }
  destruct n as [|p|p]; cbn [Z.to_int NilZero.string_of_int].
  - eexists _, _. split; reflexivity.
  - apply Huint, DecimalPos.Unsigned.to_uint_nonnil.
  - eexists _, _. split; reflexivity.
Qed.

(** An [int] is in range for a char field exactly below 10^4300 in
    absolute value. *)
Lemma char_int_in_range (n : Z) :
  in_range fmt_c (VInt n) = (Z.abs n <? 10 ^ 4300).
Proof.
  unfold in_range. cbn [int_format]. rewrite py_str_int.
  change (Z.of_nat int_max_str_digits) with 4300.
  destruct (Z.abs n <? 10 ^ 4300); [|reflexivity].
  destruct (string_of_int_head n) as (a & rest & -> & Hascii). exact Hascii.
Qed.

(** An [int] argument is only ever refused with [struct.error]: out of
    bounds for an integer format, too large for a double, too large for
    4 bytes, or not a [bytes] object for ['c']. *)
Lemma pack_one_int_error (c : fmt) (n : Z) (e : exn) :
  pack_one c (VInt n) = inl e -> e = StructError.
Proof.
  unfold pack_one. destruct (int_format c) as [[[w lo] hi]|].
  - destruct ((lo <=? n) && (n <=? hi)); [discriminate | now intros [= <-]].
  - destruct c; unfold as_double;
      try (destruct (Ieee.double_of_int n) as [bits|]; [|now intros [= <-]]);
      try (destruct (Ieee.float32_of_double bits); [|discriminate]);
      try discriminate; now intros [= <-].
Qed.

(** A float field at its edge: 10^38 is packed, the [int] 10^39 is a
    [struct.error], the [float] 1e39 an [OverflowError]. *)
Lemma pack_one_float_limit :
  pack_one fmt_f (VInt (10 ^ 38)) = inr [153; 118; 150; 126]
  /\ pack_one fmt_f (VInt (10 ^ 39)) = inl StructError
  /\ pack_one fmt_f (VFloat 0x48078287F49C4A1D) = inl OverflowError
  /\ pack_one fmt_d (VInt (10 ^ 39)) = inr [29; 74; 156; 244; 135; 130; 7; 72].
Proof. repeat split; vm_compute; reflexivity. Qed.

(** In range means: the branch builds an argument and [struct.pack]
    accepts it. *)
Lemma in_range_packs (c : fmt) (v : pyval) :
  in_range c v = true <->
  exists a bs, argument c v = inr a /\ pack_one c a = inr bs.
Proof.
  unfold in_range, pack_one, argument.
  destruct c; cbn [int_format].
  1-8: (split;
        [ intros H; destruct v as [n| | |]; try discriminate;
          eexists _, _; split; [reflexivity|]; cbn; rewrite H; reflexivity
        | intros (a & bs & [= <-] & H); destruct v as [n| | |]; try discriminate;
          match type of H with
          | (if ?b then _ else _) = _ => destruct b; [reflexivity | discriminate]
          end ]).
  - split.
    + intros H. destruct (as_double v) as [e|bits] eqn:Hd; [discriminate|].
      destruct (Ieee.float32_of_double bits) as [e|b32] eqn:Hf; [discriminate|].
      eexists _, _. split; [reflexivity|]. rewrite Hd, Hf. reflexivity.
    + intros (a & bs & [= <-] & H).
      destruct (as_double v) as [e|bits]; [discriminate|].
      destruct (Ieee.float32_of_double bits); [destruct v; discriminate | reflexivity].
  - split.
    + intros H. destruct (as_double v) as [e|bits] eqn:Hd; [discriminate|].
      eexists _, _. split; [reflexivity|]. rewrite Hd. reflexivity.
    + intros (a & bs & [= <-] & H).
      destruct (as_double v) as [e|bits]; [discriminate | reflexivity].
  - unfold first_char_ascii. split.
    + intros H. destruct (py_str v) as [e|[|ch s]]; try discriminate.
      rewrite H. eexists _, _. split; reflexivity.
    + intros (a & bs & Ha & H).
      destruct (py_str v) as [e|[|ch s]]; try discriminate.
      destruct (Z.of_nat (nat_of_ascii ch) <? 128); [reflexivity | discriminate].
Qed.

End Packing.

Section Payload.

Lemma payload_width_cons (field : string * string) (rest : list (string * string)) :
  payload_width (field :: rest) = (field_width field + payload_width rest)%nat.
Proof. reflexivity. Qed.

(** The loop and [struct.pack] both succeed exactly when every field with
    a recognized type has an in-range value; the payload then has the
    width of the declared fields. *)
Lemma collect_pack_spec (fields : list (string * string)) (data : gmap string pyval) :
  (forall name type c,
      In (name, type) fields -> struct_code type = Some c ->
      in_range c (data_get data name) = true)
  <->
  exists format values bs,
    collect fields data = inr (format, values)
    /\ struct_pack format values = inr bs.
Proof.
  induction fields as [|[name type] rest IH].
  - split; [|intros _ ? ? ? []]. intros _. now exists [], [], [].
  - cbn [collect]. destruct (struct_code type) as [c|] eqn:Hc.
    + split.
      * intros Hall.
        destruct (proj1 (in_range_packs c (data_get data name))) as (a & b1 & Ha & Hb1).
        { apply (Hall name type c); [now left | exact Hc]. }
        destruct (proj1 IH) as (format & values & bs & Hcol & Hpack).
        { intros n t c' Hin. apply Hall. now right. }
        rewrite Ha, Hcol. exists (c :: format), (a :: values), (b1 ++ bs).
        split; [reflexivity|]. cbn [struct_pack]. now rewrite Hb1, Hpack.
      * intros (format & values & bs & Hcol & Hpack).
        destruct (argument c (data_get data name)) as [e|a] eqn:Ha; [discriminate|].
        destruct (collect rest data) as [e|[format' values']] eqn:Hrest; [discriminate|].
        injection Hcol as <- <-. cbn [struct_pack] in Hpack.
        destruct (pack_one c a) as [e|b1] eqn:Hb1; [discriminate|].
        destruct (struct_pack format' values') as [e|bs'] eqn:Hpack'; [discriminate|].
        intros n t c' [[= <- <-]|Hin] Hc'.
        -- rewrite Hc in Hc'. injection Hc' as <-.
           apply in_range_packs. now exists a, b1.
        -- eapply (proj2 IH); [now exists format', values', bs' | exact Hin | exact Hc'].
    + rewrite <- IH. split.
      * intros Hall n t c Hin. apply Hall. now right.
      * intros Hall n t c [[= <- <-]|Hin] Hc'; [congruence|]. now apply (Hall n t c).
Qed.

Lemma collect_lengths (fields : list (string * string)) (data : gmap string pyval)
    (format : list fmt) (values : list pyval) :
  collect fields data = inr (format, values) ->
  length format = length values
  /\ list_sum (map wireWidth format) = payload_width fields.
Proof.
  revert format values.
  induction fields as [|[name type] rest IH]; intros format values; cbn [collect].
  - now intros [= <- <-].
  - rewrite payload_width_cons. unfold field_width. cbn [snd].
    destruct (struct_code type) as [c|]; [|apply IH].
    destruct (argument c (data_get data name)); [discriminate|].
    destruct (collect rest data) as [e|[format' values']]; [discriminate|].
    intros [= <- <-]. destruct (IH _ _ eq_refl) as [Hlen Hsum].
    split; [cbn [length]; now rewrite Hlen|].
    change (list_sum (map wireWidth (c :: format')))
      with (wireWidth c + list_sum (map wireWidth format'))%nat.
    now rewrite Hsum.
Qed.

(** [pack_payload] returns a payload exactly for in-range values, and the
    payload has the declared width. *)
Lemma pack_payload_spec (fields : list (string * string)) (data : gmap string pyval) :
  (forall name type c,
      In (name, type) fields -> struct_code type = Some c ->
      in_range c (data_get data name) = true)
  <->
  exists payload, pack_payload fields data = inr payload.
Proof.
  rewrite collect_pack_spec. unfold pack_payload. split.
  - intros (format & values & bs & -> & Hpack).
    destruct values as [|v values]; [now exists []|].
    rewrite Hpack. now exists bs.
  - intros [payload H].
    destruct (collect fields data) as [e|[format values]] eqn:Hcol; [discriminate|].
    destruct (collect_lengths _ _ _ _ Hcol) as [Hlen _].
    destruct values as [|v values].
    + destruct format; [|discriminate]. now exists [], [], [].
    + destruct (struct_pack format (v :: values)) as [[]|bs] eqn:Hpack; try discriminate.
      now exists format, (v :: values), bs.
Qed.

Lemma pack_payload_length (fields : list (string * string)) (data : gmap string pyval)
    (payload : list Z) :
  pack_payload fields data = inr payload ->
  length payload = payload_width fields.
Proof.
  unfold pack_payload.
  destruct (collect fields data) as [e|[format values]] eqn:Hcol; [discriminate|].
  destruct (collect_lengths _ _ _ _ Hcol) as [Hlen Hsum].
  destruct values as [|v values].
  - destruct format; [|discriminate]. intros [= <-]. now rewrite <- Hsum.
  - destruct (struct_pack format (v :: values)) as [[]|bs] eqn:Hpack; try discriminate.
    intros [= <-]. rewrite <- Hsum. now apply struct_pack_length in Hpack.
Qed.

(** What [pack_payload] stops with is never a packet. *)
Lemma pack_payload_stop (fields : list (string * string)) (data : gmap string pyval)
    (stop : outcome) :
  pack_payload fields data = inl stop ->
  stop = ReturnedNone \/ exists e, stop = Raised e.
Proof.
  unfold pack_payload.
  destruct (collect fields data) as [e|[format values]]; [intros [= <-]; eauto|].
  destruct values as [|v values]; [discriminate|].
  destruct (struct_pack format (v :: values)) as [[]|bs]; intros [= <-]; eauto.
Qed.

End Payload.

Section Frame.

Lemma pack_B (n : Z) :
  pack_one fmt_B (VInt n)
  = if (0 <=? n) && (n <=? 255) then inr [n mod 256] else inl StructError.
Proof. reflexivity. Qed.

Lemma pack_H (n : Z) :
  pack_one fmt_H (VInt n)
  = if (0 <=? n) && (n <=? 65535) then inr (le_bytes 2 n) else inl StructError.
Proof. reflexivity. Qed.

Lemma in_bounds (lo hi n : Z) : (lo <=? n) && (n <=? hi) = true <-> lo <= n <= hi.
Proof. rewrite andb_true_iff, !Z.leb_le. reflexivity. Qed.

Lemma land_low_byte (n : Z) : 0 <= Z.land n 0xFF <= 255.
Proof.
  change (Z.land n 0xFF) with (Z.land n (Z.ones 8)). rewrite Z.land_ones by lia.
  pose proof (Z.mod_pos_bound n (2 ^ 8) ltac:(lia)). lia.
Qed.

Lemma land_low_word (n : Z) : 0 <= Z.land n 0xFFFF <= 65535.
Proof.
  change (Z.land n 0xFFFF) with (Z.land n (Z.ones 16)). rewrite Z.land_ones by lia.
  pose proof (Z.mod_pos_bound n (2 ^ 16) ltac:(lia)). lia.
Qed.

(** The '<H' packing of a sixteen-bit value always succeeds. *)
Lemma struct_pack_H (n : Z) :
  0 <= n <= 65535 -> struct_pack [fmt_H] [VInt n] = inr (le_bytes 2 n).
Proof.
  intros Hn. cbn [struct_pack]. rewrite pack_H.
  rewrite (proj2 (in_bounds 0 65535 n) Hn). now rewrite app_nil_r.
Qed.

Lemma pack_header_spec (self : encoder) (seq payload_len message_id : Z) :
  pack_header self seq payload_len message_id
  = if is_byte payload_len && is_byte seq
       && is_byte (system_id self) && is_byte (component_id self)
    then inr (header_bytes self seq payload_len message_id)
    else inl StructError.
Proof.
  unfold pack_header, header_bytes, is_byte.
  rewrite struct_pack_H by apply land_low_word.
  cbn [struct_pack]. rewrite !pack_B.
  change ((0 <=? 0) && (0 <=? 255)) with true. cbn iota.
  rewrite (proj2 (in_bounds 0 255 _) (land_low_byte message_id)). cbn iota.
  destruct ((0 <=? payload_len) && (payload_len <=? 255)) eqn:H1; [|reflexivity].
  destruct ((0 <=? seq) && (seq <=? 255)) eqn:H2; [|reflexivity].
  destruct ((0 <=? system_id self) && (system_id self <=? 255)) eqn:H3; [|reflexivity].
  destruct ((0 <=? component_id self) && (component_id self <=? 255)) eqn:H4;
    [|reflexivity].
  apply in_bounds in H1, H2, H3, H4.
  pose proof (land_low_byte message_id).
  cbn [andb app]. rewrite !Z.mod_small by lia. reflexivity.
Qed.

Lemma header_bytes_length (self : encoder) (seq payload_len message_id : Z) :
  length (header_bytes self seq payload_len message_id) = 10%nat.
Proof. reflexivity. Qed.

(** Every emitted packet has the shape start byte, header, payload,
    checksum, and comes with the advanced counter. *)
Lemma create_packet_inv (checksum : Z -> list Z -> list Z -> Z)
    (self self' : encoder) (message_id : Z) (info : msg_info)
    (data : gmap string pyval) (packet : list Z) :
  create_packet_with checksum self message_id info data = (Packet packet, self') ->
  exists payload,
    let header :=
      header_bytes self (sequence self) (Z.of_nat (length payload)) message_id in
    pack_payload (fields info) data = inr payload
    /\ is_byte (Z.of_nat (length payload)) && is_byte (sequence self)
       && is_byte (system_id self) && is_byte (component_id self) = true
    /\ self' = advance self
    /\ packet = [0xFD] ++ header ++ payload
                ++ le_bytes 2 (checksum message_id header payload).
Proof.
  unfold create_packet_with.
  destruct (pack_payload (fields info) data) as [stop|payload] eqn:Hpay.
  - intros [= Hstop _]. apply pack_payload_stop in Hpay.
    destruct Hpay as [->|[e ->]]; discriminate.
  - rewrite pack_header_spec. cbn [system_id component_id advance].
    destruct (is_byte _ && is_byte _ && is_byte _ && is_byte _) eqn:Hb;
      [|intros [=]].
    cbn [struct_pack]. rewrite pack_H.
    destruct ((0 <=? _) && (_ <=? 65535)); [|intros [=]].
    rewrite app_nil_r. intros [= <- <-].
    exists payload. cbn zeta. repeat split; try assumption.
Qed.

(** With an in-range payload, byte-sized ids and counter, and a payload of
    at most 255 bytes, a packet is emitted. *)
Lemma create_packet_ok (checksum : Z -> list Z -> list Z -> Z)
    (self : encoder) (message_id : Z) (info : msg_info)
    (data : gmap string pyval) (payload : list Z) :
  (forall id header bytes, 0 <= checksum id header bytes <= 65535) ->
  pack_payload (fields info) data = inr payload ->
  is_byte (Z.of_nat (length payload)) && is_byte (sequence self)
  && is_byte (system_id self) && is_byte (component_id self) = true ->
  let header :=
    header_bytes self (sequence self) (Z.of_nat (length payload)) message_id in
  create_packet_with checksum self message_id info data
  = (Packet ([0xFD] ++ header ++ payload
             ++ le_bytes 2 (checksum message_id header payload)),
     advance self).
Proof.
  intros Hck Hpay Hb. unfold create_packet_with. rewrite Hpay.
  rewrite pack_header_spec. cbn [system_id component_id advance].
  rewrite Hb. rewrite struct_pack_H by apply Hck. reflexivity.
Qed.

End Frame.

Section Encoder.

Lemma plain_checksum_range (id : Z) (header bytes : list Z) :
  0 <= Plain.checksum id header bytes <= 65535.
Proof.
  unfold Plain.checksum.
  pose proof (plain_crc_range (drop 1 header ++ bytes)). lia.
Qed.

Lemma seeded_checksum_range (id : Z) (header bytes : list Z) :
  0 <= Seeded.checksum id header bytes <= 65535.
Proof.
  unfold Seeded.checksum.
  pose proof (calculate_crc_range (drop 1 header ++ bytes) (Crc.select_crc_extra id)).
  cbn zeta. lia.
Qed.

(** Both encoders are instances of the common shape, with a checksum that
    fits sixteen bits. *)
Lemma variant_shape
    (create : encoder -> Z -> msg_info -> gmap string pyval -> outcome * encoder) :
  is_variant create ->
  exists checksum,
    create = create_packet_with checksum
    /\ forall id header bytes, 0 <= checksum id header bytes <= 65535.
Proof.
  intros [-> | ->].
  - exists Plain.checksum. split; [reflexivity | apply plain_checksum_range].
  - exists Seeded.checksum. split; [reflexivity | apply seeded_checksum_range].
Qed.

Lemma data_get_insert_default (data : gmap string pyval) (absent field_name : string) :
  data !! absent = None ->
  data_get (<[absent := VInt 0]> data) field_name = data_get data field_name.
Proof.
  intros Hnone. unfold data_get.
  destruct (decide (absent = field_name)) as [<- | Hne].
  - now rewrite lookup_insert_eq, Hnone.
  - now rewrite lookup_insert_ne.
Qed.

(** The loop reads the dictionary only through [data.get(field_name, 0)]. *)
Lemma collect_ext (fields : list (string * string)) (d1 d2 : gmap string pyval) :
  (forall field_name, data_get d1 field_name = data_get d2 field_name) ->
  collect fields d1 = collect fields d2.
Proof.
  intros Hext. induction fields as [|[name type] rest IH]; [reflexivity|].
  cbn [collect]. now rewrite Hext, IH.
Qed.

Lemma collect_filter (fields : list (string * string)) (data : gmap string pyval) :
  collect (List.filter recognized fields) data = collect fields data.
Proof.
  induction fields as [|[name type] rest IH]; [reflexivity|].
  cbn [List.filter collect]. unfold recognized at 1. cbn [snd].
  destruct (struct_code type) as [c|] eqn:Hc; [|exact IH].
  cbn [collect]. now rewrite Hc, IH.
Qed.

Lemma struct_code_none (field_type : string) :
  struct_code field_type = None
  <-> Forall (fun token => contains token field_type = false) type_tokens.
Proof.
  unfold struct_code, type_tokens. split.
  - intros H.
    repeat match type of H with
           | (if ?b then _ else _) = _ => destruct b eqn:?; [discriminate|]
           end.
    repeat constructor; assumption.
  - intros H.
    repeat match type of H with
           | Forall _ (_ :: _) => apply Forall_cons in H as [-> H]
           end.
    reflexivity.
Qed.

Lemma advance_sequence (self : encoder) :
  sequence (advance self) = (sequence self + 1) mod 256.
Proof.
  cbn [advance sequence].
  change (Z.land (sequence self + 1) 0xFF)
    with (Z.land (sequence self + 1) (Z.ones 8)).
  now rewrite Z.land_ones by lia.
Qed.

(** One emitted packet carries the counter it found and leaves the counter
    advanced by one modulo 256. *)
Lemma create_packet_sequence (checksum : Z -> list Z -> list Z -> Z)
    (self self' : encoder) (message_id : Z) (info : msg_info)
    (data : gmap string pyval) (packet : list Z) :
  create_packet_with checksum self message_id info data = (Packet packet, self') ->
  packet !! 4%nat = Some (sequence self)
  /\ sequence self' = (sequence self + 1) mod 256
  /\ 0 <= sequence self <= 255.
Proof.
  intros H. apply create_packet_inv in H as (payload & _ & Hb & -> & ->).
  split; [reflexivity|]. split; [apply advance_sequence|].
  apply andb_true_iff in Hb as [Hb _]. apply andb_true_iff in Hb as [Hb _].
  apply andb_true_iff in Hb as [_ Hb]. now apply in_bounds in Hb.
Qed.

Lemma mod_256_window (x a b : Z) :
  (x + a) mod 256 = (x + b) mod 256 -> 0 <= a < 256 -> 0 <= b < 256 -> a = b.
Proof.
  intros Heq Ha Hb.
  pose proof (Z.div_mod (x + a) 256 ltac:(lia)).
  pose proof (Z.div_mod (x + b) 256 ltac:(lia)).
  pose proof (Z.mod_pos_bound (x + a) 256 ltac:(lia)).
  lia.
Qed.

(** Consecutive counter values: no value repeats within 256 of them. *)
Lemma counter_window_NoDup (s : Z) (n i : nat) :
  NoDup (take 256 (drop i
    ((fun k => Some ((s + Z.of_nat k) mod 256)) <$> seq 0 n))).
Proof.
  apply NoDup_alt. intros a b x Ha Hb.
  apply lookup_take_Some in Ha as [Ha Ha256], Hb as [Hb Hb256].
  rewrite lookup_drop, list_lookup_fmap in Ha, Hb.
  destruct (seq 0 n !! (i + a)%nat) as [ka|] eqn:Hka; [|discriminate].
  destruct (seq 0 n !! (i + b)%nat) as [kb|] eqn:Hkb; [|discriminate].
  apply lookup_seq in Hka as [-> _], Hkb as [-> _].
  cbn in Ha, Hb. injection Ha as <-. injection Hb as Hb.
  rewrite !Nat2Z.inj_add, !Z.add_assoc in Hb.
  apply mod_256_window in Hb; lia.
Qed.

(** A run of successful calls emits the counter values in order. *)
Lemma encode_all_sequence (checksum : Z -> list Z -> list Z -> Z)
    (calls : list (Z * msg_info * gmap string pyval))
    (self self' : encoder) (outs : list outcome) :
  encode_all (create_packet_with checksum) self calls = (outs, self') ->
  forallb is_packet outs = true ->
  0 <= sequence self < 256 ->
  sequence_byte <$> outs
  = (fun k => Some ((sequence self + Z.of_nat k) mod 256)) <$> seq 0 (length calls)
  /\ sequence self' = (sequence self + Z.of_nat (length calls)) mod 256.
Proof.
  revert self self' outs.
  induction calls as [|[[message_id info] data] calls IH]; intros self self' outs.
  - cbn. intros [= <- <-] _ Hs. split; [reflexivity|].
    rewrite Z.add_0_r, Z.mod_small by lia. reflexivity.
  - cbn [encode_all].
    destruct (create_packet_with checksum self message_id info data)
      as [out self1] eqn:Hone.
    destruct (encode_all (create_packet_with checksum) self1 calls)
      as [outs1 self2] eqn:Hrest.
    intros [= <- <-]. cbn [forallb]. intros Hall Hs.
    apply andb_true_iff in Hall as [Hout Hall].
    destruct out as [packet| |]; try discriminate.
    apply create_packet_sequence in Hone as (Hbyte & Hnext & _).
    assert (Hs1 : 0 <= sequence self1 < 256)
      by (rewrite Hnext; apply Z.mod_pos_bound; lia).
    destruct (IH _ _ _ Hrest Hall Hs1) as [Hbytes Hfinal].
    split.
    + cbn [length seq fmap list_fmap sequence_byte]. f_equal.
      * rewrite Hbyte, Z.add_0_r, Z.mod_small by lia. reflexivity.
      * change (list_fmap _ _ sequence_byte outs1) with (sequence_byte <$> outs1).
        rewrite Hbytes, <- fmap_S_seq, <- list_fmap_compose.
        apply list_fmap_ext. intros _ k _. cbn. rewrite Hnext.
        rewrite Zplus_mod_idemp_l. f_equal. f_equal. lia.
    + rewrite Hfinal, Hnext, Zplus_mod_idemp_l. cbn [length]. f_equal. lia.
Qed.

End Encoder.

(** * The claims about the encoders *)

Section EncoderClaims.

(** In every packet of the plain encoder the two checksum bytes are the
    CRC of the last nine header bytes and the payload; the length byte,
    first of the ten header bytes, is sliced off with [header[1:]], and the
    value differs from the CRC of all ten header bytes and the payload. *)
Lemma plain_packet_checksum_input (self self' : encoder) (message_id : Z)
    (info : msg_info) (data : gmap string pyval) (packet : list Z) :
  Plain.create_mavlink_packet self message_id info data = (Packet packet, self') ->
  exists header payload,
    length header = 10%nat
    /\ packet = [0xFD] ++ header ++ payload
                ++ le_bytes 2 (Crc.plain_crc (drop 1 header ++ payload))
    /\ Crc.plain_crc (drop 1 header ++ payload) <> Crc.plain_crc (header ++ payload).
Proof.
  intros H. apply create_packet_inv in H as (payload & _ & _ & _ & ->).
  eexists _, payload. split; [apply header_bytes_length|]. split; [reflexivity|].
  unfold header_bytes. cbn [app drop]. intros Heq. symmetry in Heq.
  exact (plain_crc_cons_differs _ _ Heq).
Qed.

(** C1, evaluated on the sensor message with id 50000 and values 21 and
    55. The specification has the checksum cover all ten header bytes and
    the payload. Both encoders pass [header[1:] + payload] to the CRC: the
    start byte is not in [header], so the slice removes the payload length.
    The emitted checksum is the CRC of the nine remaining header bytes and
    the payload, and it is not the CRC of the ten header bytes and the
    payload. *)
Theorem checksum_skips_length_byte :
  let header := [2; 0; 0; 0; 100; 190; 80; 195; 0; 0] in
  let payload := [21; 55] in
  Plain.create_mavlink_packet (init 100 190) 50000 sensor_info sensor_data
  = (Packet ([0xFD] ++ header ++ payload
             ++ le_bytes 2 (Crc.plain_crc ([0; 0; 0; 100; 190; 80; 195; 0; 0] ++ payload))),
     advance (init 100 190))
  /\ le_bytes 2 (Crc.plain_crc ([0; 0; 0; 100; 190; 80; 195; 0; 0] ++ payload))
     <> le_bytes 2 (Crc.plain_crc (header ++ payload))
  /\ Seeded.create_mavlink_packet (init 100 190) 50000 sensor_info sensor_data
     = (Packet ([0xFD] ++ header ++ payload
                ++ le_bytes 2 (Crc.calculate_crc
                                 ([0; 0; 0; 100; 190; 80; 195; 0; 0] ++ payload) 147)),
        advance (init 100 190))
  /\ le_bytes 2 (Crc.calculate_crc ([0; 0; 0; 100; 190; 80; 195; 0; 0] ++ payload) 147)
     <> le_bytes 2 (Crc.calculate_crc (header ++ payload) 147).
Proof.
  cbn zeta. repeat split; try (vm_compute; reflexivity); vm_compute; discriminate.
Qed.

(** C2 as stated fails: thirty-two in-range uint64 values make a payload
    of 256 bytes, which the one-byte length field of the header rejects,
    and a system id of 300 is rejected in the same [struct.pack] call; the
    [struct.error] is raised outside the [try] block, after the counter has
    advanced, and no frame is produced. A field whose type string reads
    float64 is taken by the ['float'] branch and packed in 4 bytes: the
    frame has 17 bytes, not 21. *)
Lemma frame_length_counterexample :
  (forallb (valid_field wide_data) (fields wide_info) = true
   /\ forallb (fun f => bool_decide (is_Some (wide_data !! fst f))) (fields wide_info)
      = true
   /\ payload_width (fields wide_info) = 256%nat
   /\ Plain.create_mavlink_packet (init 100 190) 50000 wide_info wide_data
      = (Raised StructError, advance (init 100 190))
   /\ Seeded.create_mavlink_packet (init 100 190) 50000 wide_info wide_data
      = (Raised StructError, advance (init 100 190)))
  /\ (forallb (valid_field sensor_data) (fields sensor_info) = true
      /\ Plain.create_mavlink_packet (init 300 190) 50000 sensor_info sensor_data
         = (Raised StructError, advance (init 300 190))
      /\ Seeded.create_mavlink_packet (init 300 190) 50000 sensor_info sensor_data
         = (Raised StructError, advance (init 300 190)))
  /\ (struct_code "float64" = Some fmt_f
      /\ Plain.create_mavlink_packet (init 100 190) 50000
           {| name := "RATIO"; fields := [("ratio", "float64")] |}
           (<["ratio" := VFloat 0x3FF8000000000000]> ∅)
         = (Packet [253; 4; 0; 0; 0; 100; 190; 80; 195; 0; 0; 0; 0; 192; 63; 242; 66],
            advance (init 100 190))).
Proof. repeat split; vm_compute; reflexivity. Qed.

(** C2, amended. For every message definition whose fields all carry
    recognized wire types of total width at most 255 bytes, every value
    map that gives those fields in-range values, and an encoder whose
    system id, component id and sequence counter fit in one byte, either
    encoder produces a frame of 13 + sum(wireWidth(f)) bytes, where
    wireWidth is 1 for uint8, int8 and char, 2 for uint16 and int16, 4 for
    uint32, int32 and float, 8 for uint64, int64 and double. In range is
    [in_range]: for a char field it asks for a value that [str] can print
    (an [int] of at most 4300 digits) and whose first character is
    ASCII. *)
Theorem frame_length
    (create : encoder -> Z -> msg_info -> gmap string pyval -> outcome * encoder)
    (self : encoder) (message_id : Z) (info : msg_info) (data : gmap string pyval) :
  is_variant create ->
  forallb (valid_field data) (fields info) = true ->
  (payload_width (fields info) <= 255)%nat ->
  is_byte (system_id self) = true ->
  is_byte (component_id self) = true ->
  is_byte (sequence self) = true ->
  exists packet,
    create self message_id info data = (Packet packet, advance self)
    /\ length packet = (13 + payload_width (fields info))%nat.
Proof.
  intros Hvar Hvalid Hwidth Hsys Hcomp Hseq.
  destruct (variant_shape create Hvar) as (checksum & -> & Hck).
  destruct (proj1 (pack_payload_spec (fields info) data)) as [payload Hpay].
  { intros name type c Hin Hc.
    pose proof (proj1 (forallb_forall _ _) Hvalid (name, type) Hin) as Hf.
    unfold valid_field in Hf. cbn [fst snd] in Hf. now rewrite Hc in Hf. }
  pose proof (pack_payload_length _ _ _ Hpay) as Hlen.
  eexists. split.
  - apply create_packet_ok; [exact Hck | exact Hpay|].
    rewrite Hseq, Hsys, Hcomp, !andb_true_r.
    apply in_bounds. lia.
  - rewrite !length_app, header_bytes_length, le_bytes_length, Hlen.
    cbn [length]. lia.
Qed.

Lemma frame_length_witness :
  exists packet,
    Seeded.create_mavlink_packet (init 100 190) 50000 every_type_info every_type_data
    = (Packet packet, advance (init 100 190))
    /\ length packet = (13 + payload_width (fields every_type_info))%nat.
Proof.
  apply (frame_length Seeded.create_mavlink_packet (init 100 190) 50000
           every_type_info every_type_data).
  - right. reflexivity.
  - vm_compute. reflexivity.
  - vm_compute. lia.
  - reflexivity.
  - reflexivity.
  - reflexivity.
Defined.

(** C3 as stated fails: with no entry for the temperature the encoders
    raise nothing and emit a frame whose payload holds 0 in its place. *)
Lemma missing_value_counterexample :
  humidity_only !! "temperature" = None
  /\ Plain.create_mavlink_packet (init 100 190) 50000 sensor_info humidity_only
     = (Packet [253; 2; 0; 0; 0; 100; 190; 80; 195; 0; 0; 0; 55; 108; 125],
        advance (init 100 190))
  /\ Seeded.create_mavlink_packet (init 100 190) 50000 sensor_info humidity_only
     = (Packet [253; 2; 0; 0; 0; 100; 190; 80; 195; 0; 0; 0; 55; 244; 181],
        advance (init 100 190)).
Proof. repeat split; vm_compute; reflexivity. Qed.

(** C3, amended. For a field name absent from the value map the encoders
    take the default of [data.get(field_name, 0)]: they behave exactly as
    on the value map extended with the integer 0 for that name, and no
    error is raised for the missing key. *)
Theorem missing_value_defaults_to_zero
    (create : encoder -> Z -> msg_info -> gmap string pyval -> outcome * encoder)
    (self : encoder) (message_id : Z) (info : msg_info) (data : gmap string pyval)
    (field_name : string) :
  is_variant create ->
  data !! field_name = None ->
  create self message_id info data
  = create self message_id info (<[field_name := VInt 0]> data).
Proof.
  intros Hvar Hnone.
  destruct (variant_shape create Hvar) as (checksum & -> & _).
  unfold create_packet_with, pack_payload.
  rewrite (collect_ext (fields info) (<[field_name := VInt 0]> data) data);
    [reflexivity|].
  intros m. now apply data_get_insert_default.
Qed.

Lemma missing_value_defaults_to_zero_witness :
  Plain.create_mavlink_packet (init 100 190) 50000 sensor_info humidity_only
  = Plain.create_mavlink_packet (init 100 190) 50000 sensor_info
      (<["temperature" := VInt 0]> humidity_only).
Proof.
  apply (missing_value_defaults_to_zero Plain.create_mavlink_packet).
  - left. reflexivity.
  - vm_compute. reflexivity.
Defined.

(** C4 as stated fails: the type string "string" holds none of the tokens,
    no error is raised, and the frame is built from the two other fields
    alone. *)
Lemma unknown_type_counterexample :
  Forall (fun token => contains token "string" = false) type_tokens
  /\ Plain.create_mavlink_packet (init 100 190) 50000 labelled_info labelled_data
     = (Packet [253; 2; 0; 0; 0; 100; 190; 80; 195; 0; 0; 1; 2; 171; 40],
        advance (init 100 190))
  /\ Seeded.create_mavlink_packet (init 100 190) 50000 labelled_info labelled_data
     = (Packet [253; 2; 0; 0; 0; 100; 190; 80; 195; 0; 0; 1; 2; 51; 224],
        advance (init 100 190)).
Proof.
  split; [|split; vm_compute; reflexivity].
  apply struct_code_none. vm_compute. reflexivity.
Qed.

(** C4, amended. A field whose type string contains none of the tokens
    uint8, int8, uint16, int16, uint32, int32, uint64, int64, float,
    double, char matches no branch of the chain and is skipped without an
    error: the encoders behave exactly as on the definition with those
    fields removed, so such a field adds no bytes to the frame. *)
Theorem unrecognized_fields_are_dropped
    (create : encoder -> Z -> msg_info -> gmap string pyval -> outcome * encoder)
    (self : encoder) (message_id : Z) (info : msg_info) (data : gmap string pyval) :
  is_variant create ->
  (forall field,
      recognized field = false
      <-> Forall (fun token => contains token (snd field) = false) type_tokens)
  /\ create self message_id info data
     = create self message_id
         {| name := name info; fields := List.filter recognized (fields info) |}
         data.
Proof.
  intros Hvar. split.
  - intros field. rewrite <- struct_code_none. unfold recognized.
    destruct (struct_code (snd field)); split; congruence.
  - destruct (variant_shape create Hvar) as (checksum & -> & _).
    unfold create_packet_with, pack_payload. cbn [fields].
    now rewrite collect_filter.
Qed.

Lemma unrecognized_fields_are_dropped_witness :
  recognized ("label", "string") = false
  /\ Seeded.create_mavlink_packet (init 100 190) 50000 labelled_info labelled_data
     = Seeded.create_mavlink_packet (init 100 190) 50000
         {| name := "LABELLED";
            fields := [("sensor_id", "uint8_t"); ("status", "uint8_t")] |}
         labelled_data.
Proof.
  destruct (unrecognized_fields_are_dropped Seeded.create_mavlink_packet
              (init 100 190) 50000 labelled_info labelled_data) as [Hrec Heq].
  - right. reflexivity.
  - split; [|exact Heq].
    apply Hrec. apply struct_code_none. vm_compute. reflexivity.
Defined.

End EncoderClaims.

Section SequenceAndRangeClaims.

(** C8. Each successful frame build writes the current sequence counter
    into the header's sequence byte and then advances the counter by one
    modulo 256; hence successive successful calls on an encoder that
    starts from 0 emit the sequence bytes 0, 1, ..., 255, 0, 1, ..., and
    no value repeats within any window of 256 consecutive calls. *)
Theorem sequence_counts_modulo_256
    (create : encoder -> Z -> msg_info -> gmap string pyval -> outcome * encoder) :
  is_variant create ->
  (forall self message_id info data packet self',
      create self message_id info data = (Packet packet, self') ->
      packet !! 4%nat = Some (sequence self)
      /\ sequence self' = (sequence self + 1) mod 256)
  /\ (forall system_id component_id calls outs self',
        encode_all create (init system_id component_id) calls = (outs, self') ->
        forallb is_packet outs = true ->
        sequence_byte <$> outs
        = (fun k => Some (Z.of_nat k mod 256)) <$> seq 0 (length calls)
        /\ sequence self' = Z.of_nat (length calls) mod 256
        /\ forall i, NoDup (take 256 (drop i (sequence_byte <$> outs)))).
Proof.
  intros Hvar. destruct (variant_shape create Hvar) as (checksum & -> & _).
  split.
  - intros self message_id info data packet self' H.
    apply create_packet_sequence in H as (Hbyte & Hnext & _). now split.
  - intros sys comp calls outs self' Hrun Hall.
    destruct (encode_all_sequence checksum calls _ _ _ Hrun Hall) as [Hbytes Hfinal];
      [cbn; lia|].
    cbn [init sequence] in Hbytes, Hfinal.
    split; [exact Hbytes|]. split; [exact Hfinal|].
    intros i. rewrite Hbytes. apply (counter_window_NoDup 0).
Qed.

Lemma sequence_counts_modulo_256_witness :
  let run :=
    encode_all Plain.create_mavlink_packet (init 100 190)
      (replicate 300 (50000, sensor_info, sensor_data)) in
  sequence_byte <$> fst run = (fun k => Some (Z.of_nat k mod 256)) <$> seq 0 300
  /\ sequence (snd run) = 44
  /\ NoDup (take 256 (drop 17 (sequence_byte <$> fst run))).
Proof.
  cbn zeta.
  destruct (sequence_counts_modulo_256 Plain.create_mavlink_packet
              (or_introl eq_refl)) as [_ Hrun].
  destruct (Hrun 100 190 (replicate 300 (50000, sensor_info, sensor_data)) _ _
              (surjective_pairing _)) as (Hbytes & Hfinal & Hwin).
  - vm_compute. reflexivity.
  - split; [exact Hbytes|]. split; [exact Hfinal | apply Hwin].
Defined.

(** C9. When the value of a field does not fit its declared wire type
    (an integer outside the bounds of an integer type, such as 300 for
    uint8 or -200 for int8), encoding fails: the call returns [None] after
    the caught [struct.error], or an exception leaves it; no frame is
    produced, no truncated value is emitted, and the encoder state is left
    as it was. *)
Theorem out_of_range_value_yields_no_frame
    (create : encoder -> Z -> msg_info -> gmap string pyval -> outcome * encoder)
    (self : encoder) (message_id : Z) (info : msg_info) (data : gmap string pyval)
    (field_name field_type : string) (c : fmt) :
  is_variant create ->
  In (field_name, field_type) (fields info) ->
  struct_code field_type = Some c ->
  in_range c (data_get data field_name) = false ->
  exists stop,
    create self message_id info data = (stop, self)
    /\ (stop = ReturnedNone \/ exists e, stop = Raised e).
Proof.
  intros Hvar Hin Hc Hout.
  destruct (variant_shape create Hvar) as (checksum & -> & _).
  unfold create_packet_with.
  destruct (pack_payload (fields info) data) as [stop|payload] eqn:Hpay.
  - exists stop. split; [reflexivity|]. now apply pack_payload_stop in Hpay.
  - pose proof (proj2 (pack_payload_spec (fields info) data)
                  (ex_intro _ payload Hpay) _ _ _ Hin Hc) as Hfits.
    congruence.
Qed.

Lemma out_of_range_value_yields_no_frame_witness :
  (exists stop,
      Plain.create_mavlink_packet (init 100 190) 50000 sensor_info
        (<["temperature" := VInt 300]> sensor_data) = (stop, init 100 190)
      /\ (stop = ReturnedNone \/ exists e, stop = Raised e))
  /\ Plain.create_mavlink_packet (init 100 190) 50000 sensor_info
       (<["temperature" := VInt 300]> sensor_data) = (ReturnedNone, init 100 190)
  /\ Seeded.create_mavlink_packet (init 100 190) 50000
       {| name := "TRIM"; fields := [("trim", "int8_t")] |}
       (<["trim" := VInt (-200)]> ∅) = (ReturnedNone, init 100 190).
Proof.
  split; [|split; vm_compute; reflexivity].
  apply (out_of_range_value_yields_no_frame Plain.create_mavlink_packet
           (init 100 190) 50000 sensor_info
           (<["temperature" := VInt 300]> sensor_data)
           "temperature" "uint8_t" fmt_B).
  - left. reflexivity.
  - left. reflexivity.
  - vm_compute. reflexivity.
  - vm_compute. reflexivity.
Defined.

End SequenceAndRangeClaims.

(** * Further properties of the frame builder *)

Section FrameLayout.

Lemma le_bytes_3_message_id (message_id : Z) :
  [Z.land message_id 0xFF] ++ le_bytes 2 (Z.land (Z.shiftr message_id 8) 0xFFFF)
  = le_bytes 3 (message_id mod 2 ^ 24).
Proof.
  change (Z.land message_id 0xFF) with (Z.land message_id (Z.ones 8)).
  change (Z.land (Z.shiftr message_id 8) 0xFFFF)
    with (Z.land (Z.shiftr message_id 8) (Z.ones 16)).
  rewrite !Z.land_ones, Z.shiftr_div_pow2 by lia.
  cbn [le_bytes app].
  change 256 with (2 ^ 8).
  assert (Hlow : (message_id mod 2 ^ 24) mod 2 ^ 8 = message_id mod 2 ^ 8)
    by (Z.to_euclidean_division_equations; lia).
  assert (Hhigh : (message_id mod 2 ^ 24) / 2 ^ 8 = (message_id / 2 ^ 8) mod 2 ^ 16)
    by (Z.to_euclidean_division_equations; lia).
  now rewrite Hlow, Hhigh.
Qed.

Lemma pack_payload_inr_stop (fields : list (string * string))
    (data : gmap string pyval) (stop : outcome) :
  pack_payload fields data = inl stop -> advances stop = false.
Proof.
  unfold pack_payload.
  destruct (collect fields data) as [e|[format values]] eqn:Hcol.
  - intros [= <-]. destruct e; try reflexivity.
    exfalso. revert Hcol. clear. 
    induction fields as [|[name type] rest IH]; cbn [collect]; [discriminate|].
    destruct (struct_code type) as [c|]; [|exact IH].
    destruct (argument c (data_get data name)) as [e|a] eqn:Ha.
    + intros [= ->]. unfold argument, first_char_ascii in Ha.
      destruct c; try discriminate.
      destruct (py_str _) as [e|[|ch s]] eqn:Hstr; try discriminate.
      * apply py_str_error in Hstr as [-> _]. discriminate.
      * destruct (_ <? 128); discriminate.
    + destruct (collect rest data) as [e|[f v]]; [|discriminate].
      intros [= ->]. now apply IH.
  - destruct values as [|v values]; [discriminate|].
    destruct (struct_pack format (v :: values)) as [[]|bs]; intros [= <-]; reflexivity.
Qed.

(** The general form of a call: either the payload stage stops it and the
    object is untouched, or the header stage is reached with the counter
    advanced. *)
Lemma create_packet_cases (checksum : Z -> list Z -> list Z -> Z)
    (self : encoder) (message_id : Z) (info : msg_info)
    (data : gmap string pyval) :
  (forall id header bytes, 0 <= checksum id header bytes <= 65535) ->
  (exists stop,
      pack_payload (fields info) data = inl stop
      /\ create_packet_with checksum self message_id info data = (stop, self))
  \/ (exists payload,
        pack_payload (fields info) data = inr payload
        /\ let fits :=
             is_byte (Z.of_nat (length payload)) && is_byte (sequence self)
             && is_byte (system_id self) && is_byte (component_id self) in
           let header :=
             header_bytes self (sequence self) (Z.of_nat (length payload))
               message_id in
           create_packet_with checksum self message_id info data
           = if fits
             then (Packet ([0xFD] ++ header ++ payload
                           ++ le_bytes 2 (checksum message_id header payload)),
                   advance self)
             else (Raised StructError, advance self)).
Proof.
  intros Hck. unfold create_packet_with.
  destruct (pack_payload (fields info) data) as [stop|payload] eqn:Hpay.
  - left. now exists stop.
  - right. exists payload. split; [reflexivity|]. cbn zeta.
    rewrite pack_header_spec. cbn [system_id component_id advance].
    destruct (is_byte _ && is_byte _ && is_byte _ && is_byte _); [|reflexivity].
    now rewrite struct_pack_H by apply Hck.
Qed.

End FrameLayout.

Section FrameTheorems.

(** X1. Every emitted frame is laid out as: 0xFD, the payload length, two
    zero flag bytes, the sequence value found in the object, the system id,
    the component id, the message id reduced modulo 2^24 as three
    little-endian bytes, a zero byte, the payload, and a sixteen-bit
    checksum as two little-endian bytes. *)
Theorem frame_layout
    (create : encoder -> Z -> msg_info -> gmap string pyval -> outcome * encoder)
    (self self' : encoder) (message_id : Z) (info : msg_info)
    (data : gmap string pyval) (packet : list Z) :
  is_variant create ->
  create self message_id info data = (Packet packet, self') ->
  exists payload crc,
    pack_payload (fields info) data = inr payload
    /\ 0 <= crc <= 65535
    /\ packet
       = [0xFD; Z.of_nat (length payload); 0; 0; sequence self;
          system_id self; component_id self]
         ++ le_bytes 3 (message_id mod 2 ^ 24) ++ [0]
         ++ payload ++ le_bytes 2 crc.
Proof.
  intros Hvar H. destruct (variant_shape create Hvar) as (checksum & -> & Hck).
  apply create_packet_inv in H as (payload & Hpay & _ & _ & ->).
  eexists payload, _. split; [exact Hpay|]. split; [apply Hck|].
  unfold header_bytes. rewrite <- le_bytes_3_message_id.
  cbn [app]. reflexivity.
Qed.

Lemma frame_layout_witness :
  exists payload crc,
    pack_payload (fields sensor_info) sensor_data = inr payload
    /\ 0 <= crc <= 65535
    /\ [253; 2; 0; 0; 0; 100; 190; 80; 195; 0; 0; 21; 55; 114; 73]
       = [0xFD; Z.of_nat (length payload); 0; 0; 0; 100; 190]
         ++ le_bytes 3 (50000 mod 2 ^ 24) ++ [0] ++ payload ++ le_bytes 2 crc.
Proof.
  apply (frame_layout Seeded.create_mavlink_packet (init 100 190)
           (advance (init 100 190)) 50000 sensor_info sensor_data).
  - right. reflexivity.
  - vm_compute. reflexivity.
Defined.

Lemma header_bytes_mod (self : encoder) (seq len message_id k : Z) :
  header_bytes self seq len (message_id + k * 2 ^ 24)
  = header_bytes self seq len message_id.
Proof.
  unfold header_bytes.
  change (?a :: ?b :: ?c :: ?d :: ?e :: ?f :: [?g]) with ([a; b; c; d; e; f] ++ [g]).
  rewrite <- !app_assoc, !(app_assoc [Z.land _ 0xFF]), !le_bytes_3_message_id.
  do 3 f_equal. Z.to_euclidean_division_equations; lia.
Qed.

Lemma select_crc_extra_mod (message_id k : Z) :
  50000 <= message_id -> 0 <= k ->
  Crc.select_crc_extra (message_id + k * 2 ^ 24) = Crc.select_crc_extra message_id.
Proof.
  intros Hid Hk. unfold Crc.select_crc_extra.
  destruct (Z.ltb_spec (message_id + k * 2 ^ 24) 50000); [lia|].
  destruct (Z.ltb_spec message_id 50000); [lia|].
  change (Z.land (message_id + k * 2 ^ 24) 0xFF)
    with (Z.land (message_id + k * 2 ^ 24) (Z.ones 8)).
  change (Z.land message_id 0xFF) with (Z.land message_id (Z.ones 8)).
  change (Z.land (Z.shiftr (message_id + k * 2 ^ 24) 8) 0xFF)
    with (Z.land (Z.shiftr (message_id + k * 2 ^ 24) 8) (Z.ones 8)).
  change (Z.land (Z.shiftr message_id 8) 0xFF)
    with (Z.land (Z.shiftr message_id 8) (Z.ones 8)).
  rewrite !Z.land_ones, !Z.shiftr_div_pow2 by lia.
  f_equal; Z.to_euclidean_division_equations; lia.
Qed.

(** X2. The header holds only the low 24 bits of the message id: the plain
    encoder behaves the same on two ids that differ by a multiple of 2^24,
    and so does the seeded encoder on ids from 50000 upwards. *)
Theorem message_id_is_truncated_to_24_bits
    (self : encoder) (message_id k : Z) (info : msg_info)
    (data : gmap string pyval) :
  Plain.create_mavlink_packet self (message_id + k * 2 ^ 24) info data
  = Plain.create_mavlink_packet self message_id info data
  /\ (50000 <= message_id -> 0 <= k ->
      Seeded.create_mavlink_packet self (message_id + k * 2 ^ 24) info data
      = Seeded.create_mavlink_packet self message_id info data).
Proof.
  split.
  - destruct (create_packet_cases Plain.checksum self (message_id + k * 2 ^ 24)
                info data plain_checksum_range) as [(s1 & H1 & E1)|(p1 & H1 & E1)];
    destruct (create_packet_cases Plain.checksum self message_id
                info data plain_checksum_range) as [(s2 & H2 & E2)|(p2 & H2 & E2)];
    rewrite H1 in H2; try discriminate.
    + injection H2 as <-. unfold Plain.create_mavlink_packet. now rewrite E1, E2.
    + injection H2 as <-. unfold Plain.create_mavlink_packet. cbn zeta in E1, E2.
      rewrite E1, E2, header_bytes_mod. reflexivity.
  - intros Hid Hk.
    destruct (create_packet_cases Seeded.checksum self (message_id + k * 2 ^ 24)
                info data seeded_checksum_range) as [(s1 & H1 & E1)|(p1 & H1 & E1)];
    destruct (create_packet_cases Seeded.checksum self message_id
                info data seeded_checksum_range) as [(s2 & H2 & E2)|(p2 & H2 & E2)];
    rewrite H1 in H2; try discriminate.
    + injection H2 as <-. unfold Seeded.create_mavlink_packet. now rewrite E1, E2.
    + injection H2 as <-. unfold Seeded.create_mavlink_packet. cbn zeta in E1, E2.
      rewrite E1, E2, header_bytes_mod. unfold Seeded.checksum.
      rewrite select_crc_extra_mod by assumption. reflexivity.
Qed.

Lemma message_id_is_truncated_to_24_bits_witness :
  Seeded.create_mavlink_packet (init 100 190) (50000 + 3 * 2 ^ 24) sensor_info
    sensor_data
  = Seeded.create_mavlink_packet (init 100 190) 50000 sensor_info sensor_data.
Proof.
  apply (message_id_is_truncated_to_24_bits (init 100 190) 50000 3
           sensor_info sensor_data); lia.
Defined.



(** X4. The sequence counter is advanced exactly by the calls that reach
    the header: those that return a packet and those in which packing the
    header raises [struct.error]. A call stopped while the payload is
    packed leaves the object as it was, and no call changes the sender
    ids. *)
Theorem counter_advances_with_header
    (create : encoder -> Z -> msg_info -> gmap string pyval -> outcome * encoder)
    (self : encoder) (message_id : Z) (info : msg_info) (data : gmap string pyval) :
  is_variant create ->
  let '(out, self') := create self message_id info data in
  self' = (if advances out then advance self else self)
  /\ system_id self' = system_id self
  /\ component_id self' = component_id self.
Proof.
  intros Hvar. destruct (variant_shape create Hvar) as (checksum & -> & Hck).
  destruct (create_packet_cases checksum self message_id info data Hck)
    as [(stop & Hpay & ->)|(payload & Hpay & ->)]; cbn zeta.
  - rewrite (pack_payload_inr_stop _ _ _ Hpay). auto.
  - destruct (is_byte _ && _ && _ && _); cbn [advances]; auto.
Qed.

Lemma counter_advances_with_header_witness :
  snd (Plain.create_mavlink_packet (init 100 190) 50000 wide_info wide_data)
  = advance (init 100 190).
Proof.
  pose proof (counter_advances_with_header Plain.create_mavlink_packet
                (init 100 190) 50000 wide_info wide_data (or_introl eq_refl)) as H.
  destruct (Plain.create_mavlink_packet (init 100 190) 50000 wide_info wide_data)
    as [out self'] eqn:Hrun.
  destruct H as (-> & _). vm_compute in Hrun. injection Hrun as <- _.
  reflexivity.
Defined.

End FrameTheorems.

Section RunsAndBytes.

Lemma advance_is_byte (self : encoder) : is_byte (sequence (advance self)) = true.
Proof.
  rewrite advance_sequence. apply in_bounds.
  pose proof (Z.mod_pos_bound (sequence self + 1) 256 ltac:(lia)). lia.
Qed.

Lemma encode_all_counter (checksum : Z -> list Z -> list Z -> Z)
    (calls : list (Z * msg_info * gmap string pyval))
    (self self' : encoder) (outs : list outcome) :
  (forall id header bytes, 0 <= checksum id header bytes <= 65535) ->
  encode_all (create_packet_with checksum) self calls = (outs, self') ->
  is_byte (sequence self) = true ->
  length outs = length calls
  /\ system_id self' = system_id self
  /\ component_id self' = component_id self
  /\ sequence self'
     = (sequence self + Z.of_nat (length (List.filter advances outs))) mod 256.
Proof.
  intros Hck. revert self self' outs.
  induction calls as [|[[message_id info] data] calls IH]; intros self self' outs.
  - cbn. intros [= <- <-] Hs. apply in_bounds in Hs.
    rewrite Z.add_0_r, Z.mod_small by lia. auto.
  - cbn [encode_all].
    destruct (create_packet_with checksum self message_id info data)
      as [out self1] eqn:Hone.
    destruct (encode_all (create_packet_with checksum) self1 calls)
      as [outs1 self2] eqn:Hrest.
    intros [= <- <-] Hs.
    assert (Hstep : self1 = if advances out then advance self else self).
    { destruct (create_packet_cases checksum self message_id info data Hck)
        as [(stop & Hpay & E)|(payload & Hpay & E)]; cbn zeta in E;
        rewrite E in Hone.
      - injection Hone as <- <-. now rewrite (pack_payload_inr_stop _ _ _ Hpay).
      - destruct (is_byte _ && _ && _ && _); injection Hone as <- <-; reflexivity. }
    assert (Hs1 : is_byte (sequence self1) = true)
      by (rewrite Hstep; destruct (advances out); [apply advance_is_byte | exact Hs]).
    destruct (IH _ _ _ Hrest Hs1) as (Hlen & Hsys & Hcomp & Hseq).
    cbn [length List.filter]. rewrite Hlen, Hsys, Hcomp, Hseq, Hstep.
    destruct (advances out); cbn [length].
    + repeat split; try reflexivity.
      rewrite advance_sequence, Zplus_mod_idemp_l. f_equal. lia.
    + repeat split; reflexivity.
Qed.

(** X5. Over any series of calls on one object, whatever their outcomes,
    the sender ids stay as they were and the counter ends at its start
    value plus the number of calls that returned a packet or raised the
    header's [struct.error], modulo 256; it stays within 0..255. *)
Theorem counter_over_any_run
    (create : encoder -> Z -> msg_info -> gmap string pyval -> outcome * encoder)
    (self self' : encoder) (calls : list (Z * msg_info * gmap string pyval))
    (outs : list outcome) :
  is_variant create ->
  is_byte (sequence self) = true ->
  encode_all create self calls = (outs, self') ->
  system_id self' = system_id self
  /\ component_id self' = component_id self
  /\ sequence self'
     = (sequence self + Z.of_nat (length (List.filter advances outs))) mod 256
  /\ 0 <= sequence self' <= 255.
Proof.
  intros Hvar Hs Hrun. destruct (variant_shape create Hvar) as (checksum & -> & Hck).
  destruct (encode_all_counter checksum calls _ _ _ Hck Hrun Hs)
    as (_ & Hsys & Hcomp & Hseq).
  repeat split; try assumption; rewrite Hseq.
  - apply Z.mod_pos_bound. lia.
  - pose proof (Z.mod_pos_bound
                  (sequence self + Z.of_nat (length (List.filter advances outs)))
                  256 ltac:(lia)). lia.
Qed.

Lemma counter_over_any_run_witness :
  let run := encode_all Plain.create_mavlink_packet (init 100 190) mixed_calls in
  (is_packet <$> fst run) = [true; false; false; true]
  /\ sequence_byte <$> fst run = [Some 0; None; None; Some 2]
  /\ sequence (snd run) = 3.
Proof.
  cbn zeta. split; [vm_compute; reflexivity|]. split; [vm_compute; reflexivity|].
  destruct (counter_over_any_run Plain.create_mavlink_packet (init 100 190) _
              mixed_calls _ (or_introl eq_refl) eq_refl (surjective_pairing _))
    as (_ & _ & Hseq & _).
  rewrite Hseq. vm_compute. reflexivity.
Defined.

Lemma le_bytes_Forall (w : nat) (n : Z) :
  Forall (fun b => 0 <= b <= 255) (le_bytes w n).
Proof.
  revert n. induction w as [|w IH]; intros n; cbn [le_bytes]; constructor.
  - pose proof (Z.mod_pos_bound n 256 ltac:(lia)). lia.
  - apply IH.
Qed.

Lemma pack_one_Forall (c : fmt) (a : pyval) (value : pyval) (bs : list Z) :
  argument c value = inr a -> pack_one c a = inr bs ->
  Forall (fun b => 0 <= b <= 255) bs.
Proof.
  unfold pack_one. destruct (int_format c) as [[[w lo] hi]|] eqn:Hfmt.
  - intros _. destruct a as [n| | |]; try discriminate.
    destruct ((lo <=? n) && (n <=? hi)); [|discriminate].
    intros [= <-]. apply le_bytes_Forall.
  - destruct c; try discriminate.
    + intros _. destruct (as_double a) as [e|bits]; [discriminate|].
      destruct (Ieee.float32_of_double bits); [destruct a; discriminate|].
      intros [= <-]. apply (le_bytes_Forall 4).
    + intros _. destruct (as_double a) as [e|bits]; [discriminate|].
      intros [= <-]. apply (le_bytes_Forall 8).
    + unfold argument, first_char_ascii.
      destruct (py_str value) as [e|[|ch s]]; try discriminate.
      destruct (Z.ltb_spec (Z.of_nat (nat_of_ascii ch)) 128); [|discriminate].
      intros [= <-]. intros [= <-]. repeat constructor; lia.
Qed.

Lemma pack_payload_Forall (fields : list (string * string))
    (data : gmap string pyval) (payload : list Z) :
  pack_payload fields data = inr payload ->
  Forall (fun b => 0 <= b <= 255) payload.
Proof.
  unfold pack_payload.
  destruct (collect fields data) as [e|[format values]] eqn:Hcol; [discriminate|].
  assert (Hgen : forall bs, struct_pack format values = inr bs ->
                            Forall (fun b => 0 <= b <= 255) bs).
  { revert format values Hcol.
    induction fields as [|[name type] rest IH]; intros format values; cbn [collect].
    - intros [= <- <-] bs [= <-]. constructor.
    - destruct (struct_code type) as [c|]; [|apply IH].
      destruct (argument c (data_get data name)) as [e|a] eqn:Ha; [discriminate|].
      destruct (collect rest data) as [e|[format' values']]; [discriminate|].
      intros [= <- <-] bs. cbn [struct_pack].
      destruct (pack_one c a) as [e|b1] eqn:Hb1; [discriminate|].
      destruct (struct_pack format' values') as [e|rest'] eqn:Hrest; [discriminate|].
      intros [= <-]. apply Forall_app. split.
      + eapply pack_one_Forall; eassumption.
      + now apply (IH format' values'). }
  destruct values as [|v values]; [intros [= <-]; constructor|].
  destruct (struct_pack format (v :: values)) as [[]|bs]; try discriminate.
  intros [= <-]. now apply Hgen.
Qed.

(** X6. Every element of an emitted frame is a byte: an integer between 0
    and 255. *)
Theorem frame_is_bytes
    (create : encoder -> Z -> msg_info -> gmap string pyval -> outcome * encoder)
    (self self' : encoder) (message_id : Z) (info : msg_info)
    (data : gmap string pyval) (packet : list Z) :
  is_variant create ->
  create self message_id info data = (Packet packet, self') ->
  Forall (fun b => 0 <= b <= 255) packet.
Proof.
  intros Hvar H. destruct (variant_shape create Hvar) as (checksum & -> & Hck).
  apply create_packet_inv in H as (payload & Hpay & Hfits & _ & ->).
  apply andb_true_iff in Hfits as [Hfits Hcomp].
  apply andb_true_iff in Hfits as [Hfits Hsys].
  apply andb_true_iff in Hfits as [Hlen Hseq].
  apply in_bounds in Hcomp, Hsys, Hlen, Hseq.
  pose proof (land_low_byte message_id).
  unfold header_bytes. rewrite !Forall_app. repeat split.
  - repeat constructor; lia.
  - repeat constructor; lia.
  - apply le_bytes_Forall.
  - repeat constructor; lia.
  - now apply pack_payload_Forall in Hpay.
  - apply le_bytes_Forall.
Qed.

Lemma frame_is_bytes_witness :
  Forall (fun b => 0 <= b <= 255)
    [253; 43; 0; 0; 0; 100; 190; 80; 195; 0; 0; 200; 156; 96; 234; 208;
     138; 0; 40; 107; 238; 0; 108; 202; 136; 0; 0; 8; 197; 161; 216;
     204; 249; 0; 0; 124; 29; 175; 147; 25; 131; 0; 0; 192; 63; 0; 0;
     0; 0; 0; 0; 248; 63; 65; 32; 151].
Proof.
  apply (frame_is_bytes Plain.create_mavlink_packet (init 100 190)
           (advance (init 100 190)) 50000 every_type_info every_type_data).
  - left. reflexivity.
  - vm_compute. reflexivity.
Defined.

End RunsAndBytes.

Section PayloadStructure.

Lemma collect_app (f1 f2 : list (string * string)) (data : gmap string pyval) :
  collect (f1 ++ f2) data
  = match collect f1 data with
    | inl e => inl e
    | inr (format1, values1) =>
        match collect f2 data with
        | inl e => inl e
        | inr (format2, values2) => inr (format1 ++ format2, values1 ++ values2)
        end
    end.
Proof.
  induction f1 as [|[name type] f1 IH]; cbn [app collect].
  - destruct (collect f2 data) as [e|[format2 values2]]; reflexivity.
  - destruct (struct_code type) as [c|]; [|exact IH].
    destruct (argument c (data_get data name)) as [e|a]; [reflexivity|].
    rewrite IH. destruct (collect f1 data) as [e|[format1 values1]]; [reflexivity|].
    destruct (collect f2 data) as [e|[format2 values2]]; reflexivity.
Qed.

Lemma struct_pack_app (format1 format2 : list fmt) (values1 values2 : list pyval) :
  length format1 = length values1 ->
  struct_pack (format1 ++ format2) (values1 ++ values2)
  = match struct_pack format1 values1 with
    | inl e => inl e
    | inr bs1 =>
        match struct_pack format2 values2 with
        | inl e => inl e
        | inr bs2 => inr (bs1 ++ bs2)
        end
    end.
Proof.
  revert values1.
  induction format1 as [|c format1 IH]; intros [|v values1] Hlen; try discriminate.
  - cbn [app struct_pack].
    destruct (struct_pack format2 values2); reflexivity.
  - cbn [app struct_pack]. destruct (pack_one c v) as [e|b1]; [reflexivity|].
    rewrite IH by (cbn in Hlen; congruence).
    destruct (struct_pack format1 values1) as [e|bs1]; [reflexivity|].
    destruct (struct_pack format2 values2) as [e|bs2]; [reflexivity|].
    now rewrite app_assoc.
Qed.

(** [pack_payload] without the [if values] shortcut. *)
Lemma pack_payload_unfold (fields : list (string * string)) (data : gmap string pyval) :
  pack_payload fields data
  = match collect fields data with
    | inl e => inl (Raised e)
    | inr (format, values) =>
        match struct_pack format values with
        | inr payload => inr payload
        | inl StructError => inl ReturnedNone
        | inl e => inl (Raised e)
        end
    end.
Proof.
  unfold pack_payload.
  destruct (collect fields data) as [e|[format values]] eqn:Hcol; [reflexivity|].
  destruct (collect_lengths _ _ _ _ Hcol) as [Hlen _].
  destruct values; [|reflexivity]. destruct format; [reflexivity | discriminate].
Qed.

(** X7. The payload of a definition is the concatenation, in declared
    order, of the payloads of its parts: a list of fields split in two
    packs to a payload exactly when both parts do, and the payload is then
    the first part's followed by the second part's. *)
Theorem payload_is_concatenation (f1 f2 : list (string * string))
    (data : gmap string pyval) (payload : list Z) :
  pack_payload (f1 ++ f2) data = inr payload
  <-> exists p1 p2,
        pack_payload f1 data = inr p1
        /\ pack_payload f2 data = inr p2
        /\ payload = p1 ++ p2.
Proof.
  rewrite !pack_payload_unfold, collect_app.
  destruct (collect f1 data) as [e|[format1 values1]] eqn:H1.
  - split; [discriminate | intros (? & ? & [=] & _)].
  - destruct (collect_lengths _ _ _ _ H1) as [Hlen _].
    destruct (collect f2 data) as [e|[format2 values2]] eqn:H2.
    + split; [discriminate | intros (? & ? & _ & [=] & _)].
    + rewrite struct_pack_app by exact Hlen.
      destruct (struct_pack format1 values1) as [[]|bs1];
        try (split; [discriminate | intros (? & ? & [=] & _)]).
      destruct (struct_pack format2 values2) as [[]|bs2];
        try (split; [discriminate | intros (? & ? & _ & [=] & _)]).
      split.
      * intros [= <-]. now exists bs1, bs2.
      * intros (p1 & p2 & [= <-] & [= <-] & ->). reflexivity.
Qed.

Lemma payload_is_concatenation_witness :
  pack_payload
    ([("temperature", "uint8_t")] ++ [("humidity", "uint8_t")]) sensor_data
  = inr ([21] ++ [55]).
Proof.
  apply (payload_is_concatenation [("temperature", "uint8_t")]
           [("humidity", "uint8_t")] sensor_data ([21] ++ [55])).
  exists [21], [55]. repeat split; vm_compute; reflexivity.
Defined.

End PayloadStructure.

Section FailureModes.

Lemma packs_alike_refl (c : fmt) (v : pyval) : packs_alike c v v.
Proof. unfold packs_alike. destruct (argument c v); reflexivity. Qed.

Lemma collect_alike (fields : list (string * string)) (d1 d2 : gmap string pyval) :
  (forall field_name field_type c,
      In (field_name, field_type) fields -> struct_code field_type = Some c ->
      packs_alike c (data_get d1 field_name) (data_get d2 field_name)) ->
  match collect fields d1, collect fields d2 with
  | inl e1, inl e2 => e1 = e2
  | inr (f1, v1), inr (f2, v2) => f1 = f2 /\ struct_pack f1 v1 = struct_pack f2 v2
  | _, _ => False
  end.
Proof.
  induction fields as [|[name type] rest IH]; intros Hall; cbn [collect].
  - split; reflexivity.
  - assert (Hrest : forall n t c, In (n, t) rest -> struct_code t = Some c ->
                                  packs_alike c (data_get d1 n) (data_get d2 n))
      by (intros n t c Hin; apply Hall; now right).
    specialize (IH Hrest).
    destruct (struct_code type) as [c|] eqn:Hc; [|exact IH].
    pose proof (Hall name type c (or_introl eq_refl) Hc) as Halike.
    unfold packs_alike in Halike.
    destruct (argument c (data_get d1 name)) as [e1|a1],
             (argument c (data_get d2 name)) as [e2|a2]; try contradiction;
      [exact Halike|].
    destruct (collect rest d1) as [e1|[f1 v1]], (collect rest d2) as [e2|[f2 v2]];
      try contradiction; [exact IH|].
    destruct IH as [<- Hpack]. split; [reflexivity|].
    cbn [struct_pack]. now rewrite Halike, Hpack.
Qed.

(** The payload stage reads the dictionary through nothing but the way
    each declared field's value is packed. *)
Lemma pack_payload_alike (fields : list (string * string)) (d1 d2 : gmap string pyval) :
  (forall field_name field_type c,
      In (field_name, field_type) fields -> struct_code field_type = Some c ->
      packs_alike c (data_get d1 field_name) (data_get d2 field_name)) ->
  pack_payload fields d1 = pack_payload fields d2.
Proof.
  intros Hall. rewrite !pack_payload_unfold.
  pose proof (collect_alike fields d1 d2 Hall) as H.
  destruct (collect fields d1) as [e1|[f1 v1]], (collect fields d2) as [e2|[f2 v2]];
    try contradiction.
  - now subst.
  - destruct H as [<- ->]. reflexivity.
Qed.

Lemma create_packet_payload_eq (checksum : Z -> list Z -> list Z -> Z)
    (self : encoder) (message_id : Z) (info1 info2 : msg_info)
    (d1 d2 : gmap string pyval) :
  pack_payload (fields info1) d1 = pack_payload (fields info2) d2 ->
  create_packet_with checksum self message_id info1 d1
  = create_packet_with checksum self message_id info2 d2.
Proof. intros H. unfold create_packet_with. now rewrite H. Qed.

(** X8. Entries of the value dictionary under names that the definition
    does not declare are never read: adding, changing or removing such an
    entry changes nothing in the result of a call. *)
Theorem undeclared_entries_are_ignored
    (create : encoder -> Z -> msg_info -> gmap string pyval -> outcome * encoder)
    (self : encoder) (message_id : Z) (info : msg_info) (data : gmap string pyval)
    (key : string) (value : pyval) :
  is_variant create ->
  ~ In key (map fst (fields info)) ->
  create self message_id info (<[key := value]> data)
  = create self message_id info data
  /\ create self message_id info (delete key data)
     = create self message_id info data.
Proof.
  intros Hvar Hnot. destruct (variant_shape create Hvar) as (checksum & -> & _).
  assert (Hne : forall n t, In (n, t) (fields info) -> key <> n).
  { intros n t Hin ->. apply Hnot. apply in_map_iff. now exists (n, t). }
  split; apply create_packet_payload_eq, pack_payload_alike;
    intros n t c Hin _; unfold data_get.
  - rewrite lookup_insert_ne by (eapply Hne; eassumption). apply packs_alike_refl.
  - rewrite lookup_delete_ne by (eapply Hne; eassumption). apply packs_alike_refl.
Qed.

Lemma undeclared_entries_are_ignored_witness :
  Plain.create_mavlink_packet (init 100 190) 50000 sensor_info
    (<["pressure" := VInt 100000]> sensor_data)
  = Plain.create_mavlink_packet (init 100 190) 50000 sensor_info sensor_data.
Proof.
  apply (undeclared_entries_are_ignored Plain.create_mavlink_packet (init 100 190)
           50000 sensor_info sensor_data "pressure" (VInt 100000)).
  - left. reflexivity.
  - cbn. intros [H|[H|[]]]; discriminate.
Defined.

(** X9. Of a string value only the first character can reach the frame: a
    call gives the same result when a string entry is cut down to its first
    character, whatever the types of the fields that read it. *)
Theorem only_first_character_counts
    (create : encoder -> Z -> msg_info -> gmap string pyval -> outcome * encoder)
    (self : encoder) (message_id : Z) (info : msg_info) (data : gmap string pyval)
    (key : string) (a : ascii) (s : string) :
  is_variant create ->
  create self message_id info (<[key := VStr (String a s)]> data)
  = create self message_id info (<[key := VStr (String a EmptyString)]> data).
Proof.
  intros Hvar. destruct (variant_shape create Hvar) as (checksum & -> & _).
  apply create_packet_payload_eq, pack_payload_alike.
  intros n t c _ _. unfold data_get.
  destruct (decide (key = n)) as [<- | Hne].
  - rewrite !lookup_insert_eq.
    change (default (VInt 0) (Some (VStr (String a s)))) with (VStr (String a s)).
    change (default (VInt 0) (Some (VStr (String a EmptyString))))
      with (VStr (String a EmptyString)).
    unfold packs_alike, argument, first_char_ascii.
    destruct c; cbn [py_str]; cbn beta iota; try reflexivity.
    destruct (Z.of_nat (nat_of_ascii a) <? 128); cbn beta iota; reflexivity.
  - rewrite !lookup_insert_ne by exact Hne. apply packs_alike_refl.
Qed.

Lemma only_first_character_counts_witness :
  Seeded.create_mavlink_packet (init 100 190) 50000 every_type_info
    (<["k" := VStr "Alpha"]> every_type_data)
  = Seeded.create_mavlink_packet (init 100 190) 50000 every_type_info
      (<["k" := VStr "A"]> every_type_data).
Proof.
  apply (only_first_character_counts Seeded.create_mavlink_packet (init 100 190)
           50000 every_type_info every_type_data "k" "A"%char "lpha").
  right. reflexivity.
Defined.

(** The loop finishes when every char field has a value that has a string
    form, and one that starts with an ASCII character. *)
Lemma collect_succeeds (fields : list (string * string)) (data : gmap string pyval) :
  (forall field_name field_type,
      In (field_name, field_type) fields -> struct_code field_type = Some fmt_c ->
      in_range fmt_c (data_get data field_name) = true)
  -> exists format values, collect fields data = inr (format, values).
Proof.
  induction fields as [|[name type] rest IH]; intros Hall; cbn [collect].
  - now exists [], [].
  - destruct IH as (format & values & Hrest);
      [intros n t Hin; apply Hall; now right|].
    rewrite Hrest. destruct (struct_code type) as [c|] eqn:Hc; [|eauto].
    destruct (argument c (data_get data name)) as [e|a] eqn:Ha; [|eauto].
    exfalso. destruct c; try discriminate.
    pose proof (Hall name type (or_introl eq_refl) Hc) as Hfit.
    apply in_range_packs in Hfit as (a' & _ & Ha' & _). congruence.
Qed.

(** X10. When building the argument of a char field fails - [ValueError]
    for an integer of more than 4300 digits, which [str] refuses,
    [IndexError] for a value whose string form is empty,
    [UnicodeEncodeError] when its first character is not ASCII - and the
    char fields declared before it are fine, the exception leaves the call:
    no frame is built, nothing is packed, and the object is unchanged,
    whatever the other values are. *)
Theorem char_conversion_failure
    (create : encoder -> Z -> msg_info -> gmap string pyval -> outcome * encoder)
    (self : encoder) (message_id : Z) (info : msg_info) (data : gmap string pyval)
    (before after : list (string * string)) (field_name field_type : string)
    (e : exn) :
  is_variant create ->
  fields info = before ++ (field_name, field_type) :: after ->
  (forall n t, In (n, t) before -> struct_code t = Some fmt_c ->
               in_range fmt_c (data_get data n) = true) ->
  struct_code field_type = Some fmt_c ->
  first_char_ascii (data_get data field_name) = inl e ->
  create self message_id info data = (Raised e, self)
  /\ (e = ValueError \/ e = IndexError \/ e = UnicodeEncodeError).
Proof.
  intros Hvar Hsplit Hbefore Hc Hfail.
  destruct (variant_shape create Hvar) as (checksum & -> & _).
  split.
  - unfold create_packet_with. rewrite pack_payload_unfold, Hsplit, collect_app.
    destruct (collect_succeeds before data Hbefore) as (f & v & ->).
    cbn [collect]. rewrite Hc. cbn [argument]. now rewrite Hfail.
  - unfold first_char_ascii in Hfail.
    destruct (py_str _) as [e'|[|ch s]] eqn:Hstr.
    + injection Hfail as <-. apply py_str_error in Hstr as [-> _]. now left.
    + injection Hfail as <-. right. now left.
    + destruct (_ <? 128); [discriminate|]. injection Hfail as <-. right. now right.
Qed.

Lemma char_conversion_failure_witness :
  Plain.create_mavlink_packet (init 100 190) 50000 two_labels_info
    (<["a" := VInt (10 ^ 4300)]> (<["b" := VStr ""]> ∅))
  = (Raised ValueError, init 100 190).
Proof.
  apply (char_conversion_failure Plain.create_mavlink_packet (init 100 190) 50000
           two_labels_info (<["a" := VInt (10 ^ 4300)]> (<["b" := VStr ""]> ∅))
           [] [("b", "char")] "a" "char" ValueError).
  - left. reflexivity.
  - reflexivity.
  - intros n t [].
  - vm_compute. reflexivity.
  - unfold data_get. rewrite lookup_insert_eq.
    change (default (VInt 0) (Some (VInt (10 ^ 4300)))) with (VInt (10 ^ 4300)).
    unfold first_char_ascii.
    rewrite (proj2 (py_str_digit_limit (10 ^ 4300))); [reflexivity|].
    rewrite Z.abs_eq by (apply Z.pow_nonneg; lia). apply Z.le_refl.
Defined.

(** X11. When every char field has a usable value, the fields declared
    before some field are in range, and [struct.pack] rejects that field's
    value, the call ends as the exception decides: a [struct.error] (an
    integer out of bounds, a value of the wrong kind, an [int] too large
    for a float field) is caught and [None] is returned; the only other
    exception, the [OverflowError] of a [float] too large for 4 bytes,
    leaves the call. The object is unchanged in both cases. *)
Theorem first_rejected_value_decides
    (create : encoder -> Z -> msg_info -> gmap string pyval -> outcome * encoder)
    (self : encoder) (message_id : Z) (info : msg_info) (data : gmap string pyval)
    (before after : list (string * string)) (field_name field_type : string)
    (c : fmt) (e : exn) :
  is_variant create ->
  fields info = before ++ (field_name, field_type) :: after ->
  (forall n t, In (n, t) (fields info) -> struct_code t = Some fmt_c ->
               in_range fmt_c (data_get data n) = true) ->
  (forall n t c', In (n, t) before -> struct_code t = Some c' ->
                  in_range c' (data_get data n) = true) ->
  struct_code field_type = Some c ->
  c <> fmt_c ->
  pack_one c (data_get data field_name) = inl e ->
  create self message_id info data = (packing_failure e, self)
  /\ (e = StructError
      \/ e = OverflowError /\ c = fmt_f
         /\ exists bits, data_get data field_name = VFloat bits).
Proof.
  intros Hvar Hsplit Hchars Hbefore Hc Hnc Hfail.
  destruct (variant_shape create Hvar) as (checksum & -> & _).
  split.
  - unfold create_packet_with. rewrite pack_payload_unfold, Hsplit, collect_app.
    destruct (proj1 (collect_pack_spec before data) Hbefore)
      as (f1 & v1 & b1 & Hcol1 & Hpack1).
    destruct (collect_lengths _ _ _ _ Hcol1) as [Hlen1 _].
    rewrite Hcol1.
    destruct (collect_succeeds ((field_name, field_type) :: after) data)
      as (f2 & v2 & Hcol2).
    { intros n t Hin. apply Hchars. rewrite Hsplit. apply in_or_app. now right. }
    rewrite Hcol2. cbn [collect] in Hcol2. rewrite Hc in Hcol2.
    assert (Harg : argument c (data_get data field_name) = inr (data_get data field_name))
      by (destruct c; try reflexivity; contradiction).
    rewrite Harg in Hcol2.
    destruct (collect after data) as [e'|[f3 v3]]; [discriminate|].
    injection Hcol2 as <- <-.
    rewrite struct_pack_app, Hpack1 by exact Hlen1.
    cbn [struct_pack]. rewrite Hfail.
    destruct e; reflexivity.
  - unfold pack_one in Hfail.
    destruct (int_format c) as [[[w lo] hi]|] eqn:Hfmt.
    + destruct (data_get data field_name) as [n| | |];
        try (injection Hfail as <-; now left).
      destruct ((lo <=? n) && (n <=? hi)); [discriminate|].
      injection Hfail as <-. now left.
    + destruct c; try discriminate Hfmt; try contradiction.
      * unfold as_double in Hfail.
        destruct (data_get data field_name) as [n|bits| |];
          try (injection Hfail as <-; now left).
        -- destruct (Ieee.double_of_int n) as [bits|];
             [|injection Hfail as <-; now left].
           destruct (Ieee.float32_of_double bits); [|discriminate].
           injection Hfail as <-. now left.
        -- unfold Ieee.float32_of_double in Hfail.
           destruct (Ieee.decode64 bits); try discriminate.
           destruct (binary_round 24 128 s m e0); try discriminate.
           injection Hfail as <-. right. repeat split. now exists bits.
      * unfold as_double in Hfail.
        destruct (data_get data field_name) as [n|bits| |];
          try discriminate; try (injection Hfail as <-; now left).
        destruct (Ieee.double_of_int n); [discriminate|].
        injection Hfail as <-. now left.
Qed.

End FailureModes.

Section MoreFailureModes.

Lemma first_rejected_value_decides_witness :
  Plain.create_mavlink_packet (init 100 190) 50000 every_type_info
    (<["i" := VFloat 0x483D6329F1C35CA5]> every_type_data)
  = (Raised OverflowError, init 100 190).
Proof.
  apply (first_rejected_value_decides Plain.create_mavlink_packet (init 100 190)
           50000 every_type_info
           (<["i" := VFloat 0x483D6329F1C35CA5]> every_type_data)
           (take 8 (fields every_type_info)) (drop 9 (fields every_type_info))
           "i" "float" fmt_f OverflowError).
  - left. reflexivity.
  - reflexivity.
  - intros n t Hin Hc.
    repeat (destruct Hin as [[= <- <-]|Hin];
            [vm_compute in Hc; try discriminate Hc; vm_compute; reflexivity|]).
    destruct Hin.
  - intros n t c' Hin Hc.
    repeat (destruct Hin as [[= <- <-]|Hin];
            [vm_compute in Hc; injection Hc as <-; vm_compute; reflexivity|]).
    destruct Hin.
  - vm_compute. reflexivity.
  - discriminate.
  - vm_compute. reflexivity.
Defined.

Lemma field_width_le_8 (field : string * string) : (field_width field <= 8)%nat.
Proof.
  unfold field_width. destruct (struct_code (snd field)) as [c|]; [|lia].
  destruct c; cbn; lia.
Qed.

Lemma payload_width_bound (fields : list (string * string)) :
  (payload_width fields <= 8 * length fields)%nat.
Proof.
  induction fields as [|field rest IH]; [cbn; lia|].
  rewrite payload_width_cons. pose proof (field_width_le_8 field).
  cbn [length]. lia.
Qed.

(** X12. No field takes more than 8 payload bytes, whatever its type
    string (an array suffix such as [[16]] adds nothing), so a definition
    of at most 31 fields never exceeds the one-byte length: with in-range
    values and byte-sized ids and counter, the call returns a packet. *)
Theorem up_to_31_fields_always_fit
    (create : encoder -> Z -> msg_info -> gmap string pyval -> outcome * encoder)
    (self : encoder) (message_id : Z) (info : msg_info) (data : gmap string pyval) :
  is_variant create ->
  (length (fields info) <= 31)%nat ->
  (forall field_name field_type c,
      In (field_name, field_type) (fields info) ->
      struct_code field_type = Some c ->
      in_range c (data_get data field_name) = true) ->
  is_byte (system_id self) = true ->
  is_byte (component_id self) = true ->
  is_byte (sequence self) = true ->
  (payload_width (fields info) <= 8 * length (fields info))%nat
  /\ exists packet,
       create self message_id info data = (Packet packet, advance self)
       /\ (length packet <= 13 + 8 * length (fields info))%nat.
Proof.
  intros Hvar Hcount Hvalid Hsys Hcomp Hseq.
  pose proof (payload_width_bound (fields info)) as Hbound.
  split; [exact Hbound|].
  destruct (variant_shape create Hvar) as (checksum & -> & Hck).
  destruct (proj1 (pack_payload_spec (fields info) data) Hvalid) as [payload Hpay].
  pose proof (pack_payload_length _ _ _ Hpay) as Hlen.
  eexists. split.
  - apply create_packet_ok; [exact Hck | exact Hpay|].
    rewrite Hseq, Hsys, Hcomp, !andb_true_r. apply in_bounds. lia.
  - rewrite !length_app, header_bytes_length, le_bytes_length, Hlen.
    cbn [length]. lia.
Qed.

Lemma up_to_31_fields_always_fit_witness :
  exists packet,
    Plain.create_mavlink_packet (init 100 190) 50000
      {| name := "ARRAYS";
         fields := [("samples", "uint8_t[16]"); ("label", "char[10]")] |}
      (<["samples" := VInt 7]> (<["label" := VStr "probe"]> ∅))
    = (Packet packet, advance (init 100 190))
    /\ (length packet <= 13 + 8 * 2)%nat.
Proof.
  apply (up_to_31_fields_always_fit Plain.create_mavlink_packet (init 100 190) 50000
           {| name := "ARRAYS";
              fields := [("samples", "uint8_t[16]"); ("label", "char[10]")] |}
           (<["samples" := VInt 7]> (<["label" := VStr "probe"]> ∅))).
  - left. reflexivity.
  - cbn. lia.
  - intros field_name field_type c Hin Hc.
    destruct Hin as [[= <- <-]|[[= <- <-]|[]]];
      vm_compute in Hc; injection Hc as <-; vm_compute; reflexivity.
  - reflexivity.
  - reflexivity.
  - reflexivity.
Defined.

End MoreFailureModes.

Section CrcDetection.
Import Crc.

Lemma crc_byte_inj_byte (r b1 b2 : Z) :
  0 <= r < 2 ^ 16 ->
  crc_byte r b1 = crc_byte r b2 -> b1 mod 2 ^ 8 = b2 mod 2 ^ 8.
Proof.
  intros Hr Heq. rewrite !crc_byte_masks in Heq by exact Hr.
  pose proof (Z.mod_pos_bound b1 (2 ^ 8) ltac:(lia)).
  pose proof (Z.mod_pos_bound b2 (2 ^ 8) ltac:(lia)).
  apply (f_equal (Nat.iter 8 crc_unround)) in Heq.
  rewrite !crc_unrounds_rounds in Heq by (apply lxor_range16; lia).
  apply (f_equal (Z.lxor r)) in Heq.
  rewrite <- !Z.lxor_assoc, Z.lxor_nilpotent, !Z.lxor_0_l in Heq. lia.
Qed.

Lemma fold_left_app_step {A B : Type} (f : A -> B -> A) (l1 l2 : list B) (a : A) :
  fold_left f (l1 ++ l2) a = fold_left f l2 (fold_left f l1 a).
Proof. apply fold_left_app. Qed.

(** X13. The checksum detects every corruption of a single byte: two byte
    sequences that differ in exactly one position have different plain
    checksums, and different seeded checksums under any extra byte. *)
Theorem single_byte_change_is_detected
    (before after : list Z) (b1 b2 crc_extra : Z) :
  0 <= b1 <= 255 -> 0 <= b2 <= 255 -> b1 <> b2 ->
  plain_crc (before ++ b1 :: after) <> plain_crc (before ++ b2 :: after)
  /\ calculate_crc (before ++ b1 :: after) crc_extra
     <> calculate_crc (before ++ b2 :: after) crc_extra.
Proof.
  intros H1 H2 Hne.
  assert (Hgen : forall r, 0 <= r < 2 ^ 16 ->
            fold_left crc_byte (before ++ b1 :: after) r
            <> fold_left crc_byte (before ++ b2 :: after) r).
  { intros r Hr Heq. rewrite !fold_left_app_step, !fold_left_step in Heq.
    apply fold_crc_byte_inj in Heq; try apply crc_byte_range.
    apply crc_byte_inj_byte in Heq; [|apply fold_crc_byte_range; exact Hr].
    rewrite !Z.mod_small in Heq by lia. contradiction. }
  split.
  - apply Hgen. lia.
  - rewrite !calculate_crc_fold. apply Hgen, crc_byte_range.
Qed.

Lemma single_byte_change_is_detected_witness :
  plain_crc ([0; 0; 0; 100; 190; 80; 195; 0; 0] ++ 21 :: [55])
  <> plain_crc ([0; 0; 0; 100; 190; 80; 195; 0; 0] ++ 20 :: [55])
  /\ calculate_crc ([0; 0; 0; 100; 190; 80; 195; 0; 0] ++ 21 :: [55]) 147
     <> calculate_crc ([0; 0; 0; 100; 190; 80; 195; 0; 0] ++ 20 :: [55]) 147.
Proof.
  apply (single_byte_change_is_detected [0; 0; 0; 100; 190; 80; 195; 0; 0] [55]
           21 20 147); lia.
Defined.

(** X14. The selected extra byte is always a byte and both checksums always
    fit sixteen bits - for any integers given as message id, extra value or
    data - so packing the checksum as ['<H'] cannot fail; and of the extra
    value only the low eight bits are read. *)
Theorem checksum_ranges (message_id crc_extra : Z) (data : list Z) :
  0 <= select_crc_extra message_id <= 255
  /\ 0 <= plain_crc data <= 65535
  /\ 0 <= calculate_crc data crc_extra <= 65535
  /\ calculate_crc data crc_extra = calculate_crc data (crc_extra mod 256).
Proof.
  split; [|split; [|split]].
  - unfold select_crc_extra. destruct (message_id <? 50000).
    + unfold get_standard_crc_extra, crc_extras. cbn [list_to_map foldr uncurry fst snd].
      cbn [list_to_map foldr uncurry fst snd].
      destruct (decide (message_id = 0)) as [->|];
        [rewrite lookup_insert_eq; cbn; lia | rewrite lookup_insert_ne by congruence].
      destruct (decide (message_id = 1)) as [->|];
        [rewrite lookup_insert_eq; cbn; lia | rewrite lookup_insert_ne by congruence].
      destruct (decide (message_id = 30)) as [->|];
        [rewrite lookup_insert_eq; cbn; lia | rewrite lookup_insert_ne by congruence].
      destruct (decide (message_id = 33)) as [->|];
        [rewrite lookup_insert_eq; cbn; lia | rewrite lookup_insert_ne by congruence].
      destruct (decide (message_id = 74)) as [->|];
        [rewrite lookup_insert_eq; cbn; lia | rewrite lookup_insert_ne by congruence].
      destruct (decide (message_id = 253)) as [->|];
        [rewrite lookup_insert_eq; cbn; lia | rewrite lookup_insert_ne by congruence].
      destruct (decide (message_id = 251)) as [->|];
        [rewrite lookup_insert_eq; cbn; lia | rewrite lookup_insert_ne by congruence].
      rewrite lookup_empty. cbn. lia.
    + change (Z.land message_id 0xFF) with (Z.land message_id (Z.ones 8)).
      change (Z.land (Z.shiftr message_id 8) 0xFF)
        with (Z.land (Z.shiftr message_id 8) (Z.ones 8)).
      rewrite !Z.land_ones, <- lxor_mod_pow2 by lia.
      pose proof (Z.mod_pos_bound (Z.lxor message_id (Z.shiftr message_id 8)) (2 ^ 8)
                    ltac:(lia)).
      lia.
  - pose proof (plain_crc_range data). lia.
  - pose proof (calculate_crc_range data crc_extra). lia.
  - rewrite !calculate_crc_fold. f_equal.
    rewrite (crc_byte_masks 0xFFFF crc_extra), (crc_byte_masks 0xFFFF (crc_extra mod 256))
      by lia.
    change 256 with (2 ^ 8). now rewrite Z.mod_mod by lia.
Qed.

End CrcDetection.

Section IntegerFields.

Lemma le_bytes_mod (w : nat) (n1 n2 : Z) :
  le_bytes w n1 = le_bytes w n2 -> n1 mod 256 ^ Z.of_nat w = n2 mod 256 ^ Z.of_nat w.
Proof.
  revert n1 n2. induction w as [|w IH]; intros n1 n2 Heq.
  - cbn. now rewrite !Z.mod_1_r.
  - cbn [le_bytes] in Heq. injection Heq as Hlow Hhigh.
    apply IH in Hhigh.
    rewrite Nat2Z.inj_succ, Z.pow_succ_r by lia.
    pose proof (Z.pow_pos_nonneg 256 (Z.of_nat w) ltac:(lia) ltac:(lia)) as Hpos.
    rewrite (Z.rem_mul_r n1 256 (256 ^ Z.of_nat w)) by lia.
    rewrite (Z.rem_mul_r n2 256 (256 ^ Z.of_nat w)) by lia. congruence.
Qed.

Lemma pack_one_int_inj (c : fmt) (v1 v2 : pyval) (bs : list Z) :
  int_format c <> None ->
  pack_one c v1 = inr bs -> pack_one c v2 = inr bs -> v1 = v2.
Proof.
  unfold pack_one. intros Hint H1 H2.
  destruct (int_format c) as [[[w lo] hi]|] eqn:Hfmt; [|contradiction].
  destruct v1 as [n1| | |]; try discriminate H1.
  destruct v2 as [n2| | |]; try discriminate H2.
  destruct ((lo <=? n1) && (n1 <=? hi)) eqn:Hr1; [|discriminate H1].
  destruct ((lo <=? n2) && (n2 <=? hi)) eqn:Hr2; [|discriminate H2].
  injection H1 as <-. injection H2 as H2. apply le_bytes_mod in H2.
  f_equal.
  destruct c; try discriminate Hfmt; injection Hfmt as <- <- <-;
    cbn in H2; Z.to_euclidean_division_equations; lia.
Qed.

Lemma pack_payload_cons (field_name field_type : string)
    (rest : list (string * string)) (data : gmap string pyval) (payload : list Z) :
  pack_payload ((field_name, field_type) :: rest) data = inr payload ->
  match struct_code field_type with
  | None => pack_payload rest data = inr payload
  | Some c =>
      exists a bs tail,
        argument c (data_get data field_name) = inr a
        /\ pack_one c a = inr bs
        /\ pack_payload rest data = inr tail
        /\ payload = bs ++ tail
  end.
Proof.
  rewrite !pack_payload_unfold. cbn [collect].
  destruct (struct_code field_type) as [c|]; [|exact (fun H => H)].
  destruct (argument c (data_get data field_name)) as [e|a]; [discriminate|].
  destruct (collect rest data) as [e|[format values]]; [discriminate|].
  cbn [struct_pack].
  destruct (pack_one c a) as [e|bs] eqn:Hone; [destruct e; discriminate|].
  destruct (struct_pack format values) as [e|tail]; [destruct e; discriminate|].
  intros [= <-]. exists a, bs, tail. repeat split; assumption || reflexivity.
Qed.

(** X15. Integer fields lose nothing: when every recognized type of a
    definition is an integer type and two dictionaries give the same
    payload, they hold the same value (after the default 0) for every
    field with a recognized type. *)
Theorem integer_payload_determines_values
    (fields : list (string * string)) (data1 data2 : gmap string pyval)
    (payload : list Z) :
  (forall field_name field_type c,
      In (field_name, field_type) fields ->
      struct_code field_type = Some c -> int_format c <> None) ->
  pack_payload fields data1 = inr payload ->
  pack_payload fields data2 = inr payload ->
  forall field_name field_type,
    In (field_name, field_type) fields ->
    recognized (field_name, field_type) = true ->
    data_get data1 field_name = data_get data2 field_name.
Proof.
  revert payload.
  induction fields as [|[name0 type0] rest IH]; intros payload Hint H1 H2 n t Hin Hrec.
  - destruct Hin.
  - apply pack_payload_cons in H1. apply pack_payload_cons in H2.
    assert (Hrest : forall n' t' c, In (n', t') rest ->
              struct_code t' = Some c -> int_format c <> None).
    { intros n' t' c Hin'. apply (Hint n' t' c). now right. }
    destruct (struct_code type0) as [c|] eqn:Hc.
    + destruct H1 as (a1 & bs1 & tail1 & Ha1 & Hp1 & Ht1 & ->).
      destruct H2 as (a2 & bs2 & tail2 & Ha2 & Hp2 & Ht2 & Heq).
      pose proof (Hint name0 type0 c (or_introl eq_refl) Hc) as Hfmt.
      assert (Hlen : length bs1 = length bs2).
      { rewrite (pack_one_length _ _ _ Hp1), (pack_one_length _ _ _ Hp2). reflexivity. }
      apply app_inj_1 in Heq as [Hbs Htail]; [|exact Hlen]. subst bs2 tail2.
      assert (Hargs : a1 = a2) by exact (pack_one_int_inj c a1 a2 bs1 Hfmt Hp1 Hp2).
      destruct Hin as [[= -> ->]|Hin].
      * unfold argument in Ha1, Ha2.
        destruct c; try (cbn in Hfmt; contradiction); congruence.
      * exact (IH tail1 Hrest Ht1 Ht2 n t Hin Hrec).
    + destruct Hin as [[= -> ->]|Hin].
      * unfold recognized in Hrec. cbn [snd] in Hrec. rewrite Hc in Hrec. discriminate Hrec.
      * exact (IH payload Hrest H1 H2 n t Hin Hrec).
Qed.

Lemma integer_payload_determines_values_witness :
  data_get sensor_data "humidity"
  = data_get (<["unused" := VInt 9]> sensor_data) "humidity".
Proof.
  apply (integer_payload_determines_values (fields sensor_info) sensor_data
           (<["unused" := VInt 9]> sensor_data) [21; 55]) with (field_type := "uint8_t").
  - intros field_name field_type c Hin Hc.
    repeat (destruct Hin as [[= <- <-]|Hin];
            [vm_compute in Hc; injection Hc as <-; discriminate|]).
    destruct Hin.
  - vm_compute. reflexivity.
  - vm_compute. reflexivity.
  - right. left. reflexivity.
  - vm_compute. reflexivity.
Defined.

End IntegerFields.

Section TestData.

Lemma create_of_variant (p : program) : is_variant (create_of p).
Proof. destruct p; [left | right]; reflexivity. Qed.

Lemma prefix_tail (a : ascii) (token s : string) :
  String.prefix (String a token) s = true ->
  exists s', s = String a s' /\ String.prefix token s' = true.
Proof.
  destruct s as [|b s']; cbn; [discriminate|].
  destruct (ascii_dec a b) as [->|]; [|discriminate]. eauto.
Qed.

(** A string that holds a token holds the token without its first
    character: ['int32' in 'uint32_t']. *)
Lemma contains_tail (a : ascii) (token s : string) :
  contains (String a token) s = true -> contains token s = true.
Proof.
  induction s as [|b s' IH].
  - cbn. now rewrite orb_false_r.
  - intros H. cbn [contains] in H. apply orb_true_iff in H as [H|H].
    + apply prefix_tail in H as (s'' & Heq & Hpre). injection Heq as -> ->.
      cbn [contains]. apply orb_true_iff. right.
      destruct s'' as [|c s'']; cbn [contains]; rewrite Hpre; reflexivity.
    + cbn [contains]. apply orb_true_iff. right. now apply IH.
Qed.

(** The dictionary after the loop, name by name: the value of the last
    iteration that stored one, or else what the dictionary held before. *)
Lemma generate_from_lookup
    (field_value : world -> nat -> string -> string -> option pyval)
    (w : world) (fields : list (string * string)) (n : string) (v : pyval) :
  forall (i0 : nat) (data : gmap string pyval),
    generate_from field_value w i0 fields data !! n = Some v
    <->
    (exists j t,
        fields !! j = Some (n, t)
        /\ field_value w (i0 + j)%nat n t = Some v
        /\ forall j' t', (j < j')%nat -> fields !! j' = Some (n, t') ->
             field_value w (i0 + j')%nat n t' = None)
    \/ (data !! n = Some v
        /\ forall j t, fields !! j = Some (n, t) ->
             field_value w (i0 + j)%nat n t = None).
Proof.
  induction fields as [|[n0 t0] rest IH]; intros i0 data.
  - cbn [generate_from]. split.
    + intros H. right. split; [exact H|]. intros j t Hj. destruct j; discriminate Hj.
    + intros [(j & t & Hj & _)|[H _]]; [destruct j; discriminate Hj | exact H].
  - cbn [generate_from]. rewrite IH. clear IH. split.
    + intros [(j & t & Hj & Hv & Hlast)|[Hdata Hnone]].
      * left. exists (S j), t. split; [exact Hj|].
        rewrite Nat.add_succ_r. split; [exact Hv|].
        intros [|j'] t' Hlt Hj'; [lia|].
        rewrite Nat.add_succ_r. apply (Hlast j' t'); [lia | exact Hj'].
      * destruct (field_value w i0 n0 t0) as [v0|] eqn:Hv0.
        -- destruct (decide (n0 = n)) as [->|Hne].
           ++ rewrite lookup_insert_eq in Hdata. injection Hdata as ->.
              left. exists 0%nat, t0. split; [reflexivity|].
              rewrite Nat.add_0_r. split; [exact Hv0|].
              intros [|j'] t' Hlt Hj'; [lia|].
              rewrite Nat.add_succ_r. apply (Hnone j' t'). exact Hj'.
           ++ rewrite lookup_insert_ne in Hdata by exact Hne.
              right. split; [exact Hdata|].
              intros [|j] t Hj.
              ** injection Hj as -> ->. contradiction.
              ** rewrite Nat.add_succ_r. apply (Hnone j t). exact Hj.
        -- right. split; [exact Hdata|].
           intros [|j] t Hj.
           ++ injection Hj as -> ->. rewrite Nat.add_0_r. exact Hv0.
           ++ rewrite Nat.add_succ_r. apply (Hnone j t). exact Hj.
    + intros [(j & t & Hj & Hv & Hlast)|[Hdata Hnone]].
      * destruct j as [|j].
        -- injection Hj as -> ->. rewrite Nat.add_0_r in Hv. rewrite Hv.
           right. split; [apply lookup_insert_eq|].
           intros j t' Hj. specialize (Hlast (S j) t' ltac:(lia) Hj).
           now rewrite Nat.add_succ_r in Hlast.
        -- left. exists j, t. split; [exact Hj|].
           rewrite Nat.add_succ_r in Hv. split; [exact Hv|].
           intros j' t' Hlt Hj'. specialize (Hlast (S j') t' ltac:(lia) Hj').
           now rewrite Nat.add_succ_r in Hlast.
      * right.
        pose proof (Hnone 0%nat) as H0. cbn in H0.
        assert (Hrest : forall j t, rest !! j = Some (n, t) ->
                  field_value w (S i0 + j)%nat n t = None).
        { intros j t Hj. specialize (Hnone (S j) t Hj).
          now rewrite Nat.add_succ_r in Hnone. }
        split; [|exact Hrest].
        destruct (field_value w i0 n0 t0) as [v0|] eqn:Hv0; [|exact Hdata].
        destruct (decide (n0 = n)) as [->|Hne].
        -- specialize (H0 t0 eq_refl). rewrite Nat.add_0_r in H0. congruence.
        -- rewrite lookup_insert_ne by exact Hne. exact Hdata.
Qed.

(** When every iteration that stores a value under a name stores one with
    a given property, and one of them does store, the dictionary ends with
    such a value under the name. *)
Lemma generate_from_all
    (field_value : world -> nat -> string -> string -> option pyval)
    (w : world) (P : pyval -> Prop) (fields : list (string * string)) (n : string) :
  forall (i0 : nat) (data : gmap string pyval),
    (forall j t v, fields !! j = Some (n, t) ->
        field_value w (i0 + j)%nat n t = Some v -> P v) ->
    (exists j t v, fields !! j = Some (n, t) /\ field_value w (i0 + j)%nat n t = Some v)
    \/ (exists v, data !! n = Some v /\ P v) ->
    exists v, generate_from field_value w i0 fields data !! n = Some v /\ P v.
Proof.
  induction fields as [|[n0 t0] rest IH]; intros i0 data Hall Hsome.
  - destruct Hsome as [(j & t & v & Hj & _)|H]; [destruct j; discriminate Hj | exact H].
  - cbn [generate_from]. apply IH.
    + intros j t v Hj Hv. apply (Hall (S j) t v Hj). now rewrite Nat.add_succ_r.
    + destruct Hsome as [([|j] & t & v & Hj & Hv)|(v & Hdata & HP)].
      * injection Hj as -> ->. rewrite Nat.add_0_r in Hv. rewrite Hv.
        right. exists v. split; [apply lookup_insert_eq|].
        apply (Hall 0%nat t v eq_refl). now rewrite Nat.add_0_r.
      * left. exists j, t, v. split; [exact Hj|]. now rewrite Nat.add_succ_r in Hv.
      * right. destruct (field_value w i0 n0 t0) as [v0|] eqn:Hv0; [|eauto].
        destruct (decide (n0 = n)) as [->|Hne].
        -- exists v0. split; [apply lookup_insert_eq|].
           apply (Hall 0%nat t0 v0 eq_refl). now rewrite Nat.add_0_r.
        -- exists v. split; [|exact HP]. now rewrite lookup_insert_ne.
Qed.

(** X16. [generate_data] stores, under each name, the value of the last
    iteration that stored one for that name; a name that no field declares
    is never stored. *)
Theorem generated_entry_is_last_assignment
    (p : program) (w : world) (fields : list (string * string))
    (n : string) (v : pyval) :
  generate_data (field_value_of p) w fields !! n = Some v
  <->
  exists j t,
    fields !! j = Some (n, t)
    /\ field_value_of p w j n t = Some v
    /\ forall j' t', (j < j')%nat -> fields !! j' = Some (n, t') ->
         field_value_of p w j' n t' = None.
Proof.
  unfold generate_data. rewrite generate_from_lookup. cbn [Nat.add]. split.
  - intros [H|[H _]]; [exact H|]. rewrite lookup_empty in H. discriminate H.
  - intros H. left. exact H.
Qed.

End TestData.

Section TestDataPacked.

Lemma prefix_app (a b s : string) :
  String.prefix (a ++ b) s = true -> String.prefix a s = true.
Proof.
  revert s. induction a as [|x a IH]; intros s H; [now destruct s|].
  destruct s as [|y s]; [discriminate H|].
  change (String x a +:+ b) with (String x (a +:+ b)) in H.
  cbn in H |- *. destruct (ascii_dec x y); [now apply IH | discriminate H].
Qed.

(** A string that holds a token holds every prefix of the token:
    ['time' in s] whenever ['timestamp' in s]. *)
Lemma contains_app (a b s : string) :
  contains (a ++ b) s = true -> contains a s = true.
Proof.
  induction s as [|y s IH]; cbn [contains]; intros H.
  - rewrite orb_false_r in H |- *. now apply prefix_app in H.
  - apply orb_true_iff in H as [H|H]; apply orb_true_iff.
    + left. now apply prefix_app in H.
    + right. now apply IH.
Qed.

Lemma no_time_no_timestamp (s : string) :
  contains "time" s = false -> contains "timestamp" s = false.
Proof.
  intros H. destruct (contains "timestamp" s) eqn:Hts; [|reflexivity].
  apply (contains_app "time" "stamp") in Hts. congruence.
Qed.

(** In the last branch the tests on the type string are those of
    [create_mavlink_packet], in the same order, and every value drawn
    there suits the format character chosen. *)
Lemma default_value_in_range (w : world) (i : nat) (t : string) (c : fmt) :
  randint_in_bounds w -> clock_fits w -> samples_fit w ->
  struct_code t = Some c ->
  exists v, default_value w i t = Some v /\ in_range c v = true.
Proof.
  intros Hr Hc Hs.
  pose proof (Hr i 0 255 ltac:(lia)). pose proof (Hr i (-128) 127 ltac:(lia)).
  pose proof (Hr i 0 65535 ltac:(lia)). pose proof (Hr i (-32768) 32767 ltac:(lia)).
  pose proof (Hr i 0 1000000 ltac:(lia)).
  pose proof (Hr i (-1000000) 1000000 ltac:(lia)). pose proof (Hc i).
  unfold struct_code, default_value.
  repeat match goal with
         | |- context [if contains ?tok t then _ else _] => destruct (contains tok t)
         end;
    try discriminate; intros [= <-]; eexists; (split; [reflexivity|]);
    first [ apply Hs
          | reflexivity
          | unfold in_range; cbn [int_format]; apply andb_true_iff; split;
            apply Z.leb_le; lia ].
Qed.

Lemma no_keywords_default (p : program) (w : world) (i : nat) (n t : string) :
  (forall kw, In kw (keywords_of p) -> contains kw (lower n) = false) ->
  field_value_of p w i n t = default_value w i t.
Proof.
  intros H.
  destruct p; cbn [field_value_of]; unfold PlainData.field_value, SeededData.field_value,
    sensor_value; cbn zeta;
    repeat match goal with
           | |- context [contains ?kw (lower n)] =>
               rewrite (H kw) by (cbn; repeat ((left; reflexivity) || right))
           end; reflexivity.
Qed.

(** With field names that differ, each field's value is the one its own
    iteration stored, or the default 0 of [data.get]. *)
Lemma generated_value_NoDup
    (field_value : world -> nat -> string -> string -> option pyval)
    (w : world) (fields : list (string * string)) (j : nat) (n t : string) :
  NoDup fields.*1 ->
  fields !! j = Some (n, t) ->
  data_get (generate_data field_value w fields) n
  = default (VInt 0) (field_value w j n t).
Proof.
  intros Hnd Hj. unfold data_get. f_equal.
  assert (Huniq : forall j' t', fields !! j' = Some (n, t') -> j' = j /\ t' = t).
  { intros j' t' Hj'.
    assert (j' = j) as ->.
    { apply (proj1 (NoDup_alt _) Hnd j' j n); rewrite list_lookup_fmap.
      - now rewrite Hj'.
      - now rewrite Hj. }
    split; [reflexivity | congruence]. }
  destruct (field_value w j n t) as [v|] eqn:Hv.
  - unfold generate_data. apply generate_from_lookup. left.
    exists j, t. cbn [Nat.add]. split; [exact Hj|]. split; [exact Hv|].
    intros j' t' Hlt Hj'. apply Huniq in Hj' as [-> _]. lia.
  - destruct (generate_data field_value w fields !! n) as [v|] eqn:Hg; [|reflexivity].
    unfold generate_data in Hg. apply generate_from_lookup in Hg.
    destruct Hg as [(j' & t' & Hj' & Hv' & _)|[Hempty _]].
    + cbn [Nat.add] in Hv'. apply Huniq in Hj' as [-> ->]. congruence.
    + rewrite lookup_empty in Hempty. discriminate Hempty.
Qed.

Lemma In_lookup {A : Type} (x : A) (l : list A) : In x l -> exists j, l !! j = Some x.
Proof. intros H. apply list_elem_of_In in H. now apply list_elem_of_lookup_1. Qed.

(** X17. With field names that differ from each other and hold none of
    the program's keywords, test data followed by packing always gives a
    packet, whatever the type strings are: when [randint] stays within its
    bounds, the clock fits 63 bits, the samples fit binary32, the declared
    payload is at most 255 bytes and the ids and the counter are bytes. *)
Theorem default_fields_always_pack
    (p : program) (w : world) (self : encoder) (message_id : Z) (info : msg_info) :
  randint_in_bounds w -> clock_fits w -> samples_fit w ->
  NoDup (fields info).*1 ->
  (forall n t kw, In (n, t) (fields info) -> In kw (keywords_of p) ->
     contains kw (lower n) = false) ->
  (payload_width (fields info) <= 255)%nat ->
  is_byte (system_id self) = true ->
  is_byte (component_id self) = true ->
  is_byte (sequence self) = true ->
  exists packet,
    generate_packet p w self message_id info = (Packet packet, advance self).
Proof.
  intros Hr Hc Hs Hnd Hkw Hwidth Hsys Hcomp Hseq. unfold generate_packet.
  destruct (variant_shape _ (create_of_variant p)) as (checksum & -> & Hck).
  set (data := generate_data (field_value_of p) w (fields info)).
  destruct (proj1 (pack_payload_spec (fields info) data)) as [payload Hpay].
  { intros n t c Hin Hcode. destruct (In_lookup _ _ Hin) as [j Hj].
    unfold data. rewrite (generated_value_NoDup _ w _ j n t Hnd Hj).
    rewrite no_keywords_default by (intros kw; apply (Hkw n t kw Hin)).
    destruct (default_value_in_range w j t c Hr Hc Hs Hcode) as (v & -> & Hv).
    exact Hv. }
  pose proof (pack_payload_length _ _ _ Hpay) as Hlen.
  eexists. apply create_packet_ok; [exact Hck | exact Hpay|].
  rewrite Hseq, Hsys, Hcomp, !andb_true_r. apply in_bounds. lia.
Qed.

Lemma default_fields_always_pack_witness :
  exists packet,
    generate_packet plain_program low_world (init 100 190) 50000 every_type_info
    = (Packet packet, advance (init 100 190)).
Proof.
  apply (default_fields_always_pack plain_program low_world (init 100 190) 50000
           every_type_info).
  - intros i a b Hab. cbn. lia.
  - intros i. cbn. lia.
  - intros i a b ndigits. vm_compute. reflexivity.
  - apply (bool_decide_unpack _). vm_compute. exact I.
  - intros n t kw Hin Hkw.
    repeat (destruct Hin as [[= <- <-]|Hin];
            [repeat (destruct Hkw as [<-|Hkw]; [vm_compute; reflexivity|]);
             destruct Hkw|]).
    destruct Hin.
  - vm_compute. lia.
  - reflexivity.
  - reflexivity.
  - reflexivity.
Defined.

(** A value out of range for a field with a recognized type ends the call
    before the header: there is no packet and the counter stays. *)
Lemma out_of_range_stops
    (create : encoder -> Z -> msg_info -> gmap string pyval -> outcome * encoder)
    (self : encoder) (message_id : Z) (info : msg_info) (data : gmap string pyval)
    (n t : string) (c : fmt) :
  is_variant create ->
  In (n, t) (fields info) -> struct_code t = Some c ->
  in_range c (data_get data n) = false ->
  exists stop, create self message_id info data = (stop, self) /\ is_packet stop = false.
Proof.
  intros Hvar Hin Hcode Hout.
  destruct (variant_shape create Hvar) as (checksum & -> & _).
  unfold create_packet_with.
  destruct (pack_payload (fields info) data) as [stop|payload] eqn:Hpay.
  - exists stop. split; [reflexivity|].
    destruct (pack_payload_stop _ _ _ Hpay) as [->|[e ->]]; reflexivity.
  - pose proof (proj2 (pack_payload_spec (fields info) data) (ex_intro _ payload Hpay)
                  n t c Hin Hcode) as Hok.
    congruence.
Qed.

(** X18. A field named like a temperature with a signed 8-bit type, or
    like a pressure with an 8- or 16-bit integer type, never gives a
    packet: the value drawn for it (200..300, 100000..102000, or a float)
    is always out of range. The counter stays as it was. *)
Theorem sensor_fields_too_narrow
    (p : program) (w : world) (self : encoder) (message_id : Z) (info : msg_info)
    (n t : string) (c : fmt) :
  randint_in_bounds w ->
  In (n, t) (fields info) -> struct_code t = Some c ->
  contains "time" (lower n) = false ->
  (contains "temperature" (lower n) = true /\ c = fmt_b)
  \/ (contains "temperature" (lower n) = false
      /\ contains "pressure" (lower n) = true
      /\ In c [fmt_B; fmt_b; fmt_H; fmt_h]) ->
  exists stop,
    generate_packet p w self message_id info = (stop, self) /\ is_packet stop = false.
Proof.
  intros Hr Hin Hcode Htime Hcase. unfold generate_packet.
  apply (out_of_range_stops _ self message_id info _ n t c (create_of_variant p) Hin Hcode).
  pose proof (no_time_no_timestamp _ Htime) as Hstamp.
  destruct (In_lookup _ _ Hin) as [j Hj].
  assert (Hvalue : forall i t', exists v,
            field_value_of p w i n t' = Some v
            /\ in_range c v = false).
  { intros i t'.
    assert (Hsensor : forall otherwise, exists v,
              sensor_value w i (lower n) t' otherwise = Some v /\ in_range c v = false).
    { intros otherwise. unfold sensor_value. rewrite Hstamp, Htime. cbn [orb].
      destruct Hcase as [[Htemp ->]|(Htemp & Hpres & Hc)]; rewrite Htemp.
      - destruct (contains "float" t'); eexists; (split; [reflexivity|]);
          [reflexivity|].
        pose proof (Hr i 200 300 ltac:(lia)). unfold in_range. cbn [int_format].
        apply andb_false_iff. right. apply Z.leb_gt. lia.
      - rewrite Hpres.
        destruct (contains "float" t'); eexists; (split; [reflexivity|]).
        + destruct Hc as [<-|[<-|[<-|[<-|[]]]]]; reflexivity.
        + pose proof (Hr i 100000 102000 ltac:(lia)).
          destruct Hc as [<-|[<-|[<-|[<-|[]]]]]; unfold in_range; cbn [int_format];
            apply andb_false_iff; right; apply Z.leb_gt; lia. }
    destruct p; apply Hsensor. }
  destruct (generate_from_all (field_value_of p) w (fun v => in_range c v = false)
              (fields info) n 0%nat ∅) as (v & Hv & Hout).
  - intros j' t' v _ Hv. destruct (Hvalue (0 + j')%nat t') as (v' & Hv' & Hout).
    congruence.
  - left. destruct (Hvalue (0 + j)%nat t) as (v & Hv & _). now exists j, t, v.
  - unfold data_get, generate_data. rewrite Hv. exact Hout.
Qed.

Lemma sensor_fields_too_narrow_witness :
  exists stop,
    generate_packet seeded_program low_world (init 100 190) 50000
      {| name := "BARO"; fields := [("Pressure_Pa", "uint16_t")] |}
    = (stop, init 100 190)
    /\ is_packet stop = false.
Proof.
  apply (sensor_fields_too_narrow seeded_program low_world (init 100 190) 50000
           {| name := "BARO"; fields := [("Pressure_Pa", "uint16_t")] |}
           "Pressure_Pa" "uint16_t" fmt_H).
  - intros i a b Hab. cbn. lia.
  - left. reflexivity.
  - vm_compute. reflexivity.
  - vm_compute. reflexivity.
  - right. split; [vm_compute; reflexivity|]. split; [vm_compute; reflexivity|].
    right. right. left. reflexivity.
Defined.

(** X19. The plain program's test for a signed 32-bit longitude,
    ['int32' in field_type], also holds for [uint32_t]: a field named like
    a longitude with an unsigned 32-bit type is given a negative value and
    never gives a packet. *)
Theorem unsigned_longitude_never_packs
    (w : world) (self : encoder) (message_id : Z) (info : msg_info) (n t : string) :
  randint_in_bounds w ->
  In (n, t) (fields info) -> struct_code t = Some fmt_I ->
  (forall kw, In kw (sensor_keywords ++ ["latitude"]) ->
     contains kw (lower n) = false) ->
  contains "longitude" (lower n) = true ->
  exists stop,
    generate_packet plain_program w self message_id info = (stop, self)
    /\ is_packet stop = false.
Proof.
  intros Hr Hin Hcode Hkw Hlon. unfold generate_packet.
  apply (out_of_range_stops _ self message_id info _ n t fmt_I
           (create_of_variant plain_program) Hin Hcode).
  destruct (In_lookup _ _ Hin) as [j Hj].
  assert (Hint : contains "int32" t = true).
  { apply (contains_tail "u"). revert Hcode. unfold struct_code.
    repeat match goal with
           | |- context [if contains ?tok t then _ else _] =>
               destruct (contains tok t) eqn:?; try discriminate
           end. reflexivity. }
  assert (Hvalue : forall i t',
            PlainData.field_value w i n t'
            = if contains "int32" t'
              then Some (VInt (-1224300000 + randint w i (-10000) 10000))
              else None).
  { intros i t'. unfold PlainData.field_value, sensor_value. cbn zeta.
    repeat match goal with
           | |- context [contains ?kw (lower n)] =>
               rewrite (Hkw kw) by (cbn; repeat ((left; reflexivity) || right))
           end.
    rewrite Hlon. reflexivity. }
  destruct (generate_from_all PlainData.field_value w
              (fun v => in_range fmt_I v = false) (fields info) n 0%nat ∅)
    as (v & Hv & Hout).
  - intros j' t' v _. rewrite Hvalue.
    destruct (contains "int32" t'); [|discriminate]. intros [= <-].
    pose proof (Hr j' (-10000) 10000 ltac:(lia)). cbn [Nat.add].
    unfold in_range. cbn [int_format]. apply andb_false_iff. left. apply Z.leb_gt. lia.
  - left. exists j, t. eexists. split; [exact Hj|]. rewrite Hvalue, Hint. reflexivity.
  - cbn [field_value_of]. unfold data_get, generate_data. rewrite Hv. exact Hout.
Qed.

Lemma unsigned_longitude_never_packs_witness :
  exists stop,
    generate_packet plain_program low_world (init 100 190) 50000
      {| name := "GPS"; fields := [("longitude", "uint32_t")] |}
    = (stop, init 100 190)
    /\ is_packet stop = false.
Proof.
  apply (unsigned_longitude_never_packs low_world (init 100 190) 50000
           {| name := "GPS"; fields := [("longitude", "uint32_t")] |}
           "longitude" "uint32_t").
  - intros i a b Hab. cbn. lia.
  - left. reflexivity.
  - vm_compute. reflexivity.
  - intros kw Hkw.
    repeat (destruct Hkw as [<-|Hkw]; [vm_compute; reflexivity|]). destruct Hkw.
  - vm_compute. reflexivity.
Defined.

(** X20. A name that holds [time] is given a value only through fields
    whose type holds [uint64] or [uint32]: when no field of that name has
    such a type, nothing is stored under it, in either program, and the
    packet is built from the default 0. *)
Theorem time_fields_of_other_types_are_zero
    (p : program) (w : world) (fields : list (string * string)) (n : string) :
  contains "time" (lower n) = true ->
  (forall t, In (n, t) fields ->
     contains "uint64" t = false /\ contains "uint32" t = false) ->
  generate_data (field_value_of p) w fields !! n = None
  /\ data_get (generate_data (field_value_of p) w fields) n = VInt 0.
Proof.
  intros Htime Htypes.
  assert (Hnone : generate_data (field_value_of p) w fields !! n = None).
  { destruct (generate_data (field_value_of p) w fields !! n) as [v|] eqn:Hg;
      [|reflexivity].
    unfold generate_data in Hg. apply generate_from_lookup in Hg.
    destruct Hg as [(j & t & Hj & Hv & _)|[Hempty _]].
    - apply list_elem_of_lookup_2, list_elem_of_In, Htypes in Hj as [H64 H32].
      revert Hv. destruct p; cbn [field_value_of];
        unfold PlainData.field_value, SeededData.field_value, sensor_value; cbn zeta;
        rewrite Htime, orb_true_r, H64, H32; discriminate.
    - rewrite lookup_empty in Hempty. discriminate Hempty. }
  split; [exact Hnone|]. unfold data_get. now rewrite Hnone.
Qed.

Lemma time_fields_of_other_types_are_zero_witness :
  generate_data (field_value_of plain_program) low_world
    [("uptime", "float"); ("humidity", "uint8_t")] !! "uptime" = None
  /\ data_get (generate_data (field_value_of plain_program) low_world
                 [("uptime", "float"); ("humidity", "uint8_t")]) "uptime" = VInt 0.
Proof.
  apply (time_fields_of_other_types_are_zero plain_program low_world
           [("uptime", "float"); ("humidity", "uint8_t")] "uptime").
  - vm_compute. reflexivity.
  - intros t [[= <-]|[[=]|[]]]. split; vm_compute; reflexivity.
Defined.

End TestDataPacked.

Section HexDump.

Lemma hexlify_length (packet : list Z) :
  String.length (hexlify packet) = (2 * length packet)%nat.
Proof.
  induction packet as [|b rest IH]; [reflexivity|].
  cbn [hexlify String.length length]. rewrite IH. lia.
Qed.

Lemma py_range_pairs (n : nat) :
  py_range 0 (2 * n) 2 = map (fun k => k * 2)%nat (seq 0 n).
Proof.
  unfold py_range. replace (2 * n - 0 + 2 - 1)%nat with (1 + n * 2)%nat by lia.
  rewrite Nat.div_add by lia. reflexivity.
Qed.

Lemma substring_hexlify (packet : list Z) :
  map (fun k => substring (k * 2) 2 (hexlify packet)) (seq 0 (length packet))
  = map hex_pair packet.
Proof.
  induction packet as [|b rest IH]; [reflexivity|].
  cbn [length seq map]. f_equal.
  - cbn. now destruct (hexlify rest).
  - rewrite <- seq_shift, map_map, <- IH. apply map_ext. intros k. reflexivity.
Qed.

(** Cutting the hex string in pairs gives back one pair per byte. *)
Lemma bytes_list_hexlify (packet : list Z) :
  bytes_list (hexlify packet) = map hex_pair packet.
Proof.
  unfold bytes_list. rewrite hexlify_length, py_range_pairs, map_map.
  apply substring_hexlify.
Qed.

Lemma hex_digit_inj (n m : Z) :
  0 <= n < 16 -> 0 <= m < 16 -> hex_digit n = hex_digit m -> n = m.
Proof.
  intros Hn Hm.
  assert (Hcases : forall k, 0 <= k < 16 ->
            k = 0 \/ k = 1 \/ k = 2 \/ k = 3 \/ k = 4 \/ k = 5 \/ k = 6 \/ k = 7
            \/ k = 8 \/ k = 9 \/ k = 10 \/ k = 11 \/ k = 12 \/ k = 13 \/ k = 14
            \/ k = 15) by (intros; lia).
  destruct (Hcases n Hn) as [->|[->|[->|[->|[->|[->|[->|[->|[->|[->|[->|[->|[->|[->|[->| ->]]]]]]]]]]]]]]];
    destruct (Hcases m Hm) as [->|[->|[->|[->|[->|[->|[->|[->|[->|[->|[->|[->|[->|[->|[->| ->]]]]]]]]]]]]]]];
    intros H; try reflexivity; discriminate H.
Qed.

(** X21. The hex string loses nothing: two packets of byte values with
    the same hex string are the same packet, and the list of pairs the
    dump works on has one pair per byte, in order. *)
Theorem hex_string_determines_packet (p1 p2 : list Z) :
  Forall (fun b => is_byte b = true) p1 ->
  Forall (fun b => is_byte b = true) p2 ->
  hexlify p1 = hexlify p2 ->
  p1 = p2 /\ bytes_list (hexlify p1) = map hex_pair p2.
Proof.
  intros H1 H2 Heq. assert (p1 = p2) as ->; [|split; [reflexivity | apply bytes_list_hexlify]].
  revert p2 H2 Heq. induction H1 as [|b1 p1 Hb1 _ IH]; intros p2 H2 Heq.
  - destruct p2; [reflexivity | discriminate Heq].
  - destruct H2 as [|b2 p2 Hb2 H2]; [discriminate Heq|].
    cbn [hexlify] in Heq. injection Heq as Hhi Hlo Hrest.
    unfold is_byte in Hb1, Hb2.
    apply andb_true_iff in Hb1 as [Hb1l Hb1h]. apply andb_true_iff in Hb2 as [Hb2l Hb2h].
    apply Z.leb_le in Hb1l, Hb1h, Hb2l, Hb2h.
    apply hex_digit_inj in Hhi; [|Z.to_euclidean_division_equations; lia ..].
    apply hex_digit_inj in Hlo; [|Z.to_euclidean_division_equations; lia ..].
    f_equal; [Z.to_euclidean_division_equations; lia | now apply IH].
Qed.

Lemma hex_string_determines_packet_witness :
  [253; 2; 0] = [253; 2; 0]
  /\ bytes_list (hexlify [253; 2; 0]) = map hex_pair [253; 2; 0].
Proof.
  apply (hex_string_determines_packet [253; 2; 0] [253; 2; 0]).
  - repeat constructor.
  - repeat constructor.
  - reflexivity.
Defined.

(** The four slices of a list made of one element, ten, some and two. *)
Lemma frame_slices {A : Type} (stx : A) (hdr pl crc : list A) :
  length hdr = 10%nat -> length crc = 2%nat ->
  let l := stx :: hdr ++ pl ++ crc in
  length l = (13 + length pl)%nat
  /\ slice 1 11 l = hdr
  /\ slice 11 (11 + length pl) l = pl
  /\ drop (length l - 2) l = crc.
Proof.
  intros Hh Hc l.
  assert (Hlen : length l = (13 + length pl)%nat).
  { unfold l. cbn [length]. rewrite !length_app. lia. }
  split; [exact Hlen|]. unfold slice, l. split; [|split].
  - cbn [drop]. rewrite drop_0. change (11 - 1)%nat with 10%nat.
    rewrite take_app_length' by lia. reflexivity.
  - replace (11 + length pl - 11)%nat with (length pl) by lia.
    change 11%nat with (S 10). cbn [drop].
    rewrite drop_app_length' by lia. rewrite take_app_length' by lia. reflexivity.
  - fold l. rewrite Hlen. unfold l.
    replace (13 + length pl - 2)%nat with (S (10 + length pl)) by lia. cbn [drop].
    rewrite app_assoc. rewrite drop_app_length'; [reflexivity|].
    rewrite length_app. lia.
Qed.

(** X22. The dump of a packet that [create_mavlink_packet] returned never
    fails, and its labelled lines show exactly the parts of the frame:
    [fd] as the start byte, the ten header bytes on two lines, the payload
    in lines of eight, the two checksum bytes; every length test of the
    dump holds. *)
Theorem dump_shows_frame_parts
    (create : encoder -> Z -> msg_info -> gmap string pyval -> outcome * encoder)
    (self self' : encoder) (message_id : Z) (info : msg_info)
    (data : gmap string pyval) (packet : list Z) :
  is_variant create ->
  create self message_id info data = (Packet packet, self') ->
  exists payload crc,
    let header :=
      header_bytes self (sequence self) (Z.of_nat (length payload)) message_id in
    pack_payload (fields info) data = inr payload
    /\ packet = [0xFD] ++ header ++ payload ++ crc
    /\ length crc = 2%nat
    /\ hex_dump packet
       = (([title_line packet; "    STX:     fd"] ++ header_lines (map hex_pair header))
          ++ payload_lines (map hex_pair payload)
          ++ [crc_line (map hex_pair crc)]
          ++ [raw_line (hexlify packet); c_array_line (map hex_pair packet)],
          None).
Proof.
  intros Hvar Hcall.
  destruct (variant_shape create Hvar) as (checksum & -> & _).
  apply create_packet_inv in Hcall as (payload & Hpay & _ & _ & Hpacket).
  cbv zeta in Hpacket.
  set (header := header_bytes self (sequence self) (Z.of_nat (length payload))
                   message_id) in *.
  set (crc := le_bytes 2 (checksum message_id header payload)) in *.
  exists payload, crc. cbv zeta. fold header.
  assert (Hc : length crc = 2%nat) by apply le_bytes_length.
  assert (Hh : length header = 10%nat) by apply header_bytes_length.
  split; [exact Hpay|]. split; [exact Hpacket|]. split; [exact Hc|].
  assert (Hsecond : packet !! 1%nat = Some (Z.of_nat (length payload))).
  { rewrite Hpacket. reflexivity. }
  assert (Hpairs : map hex_pair packet
                   = hex_pair 0xFD :: map hex_pair header ++ map hex_pair payload
                       ++ map hex_pair crc).
  { rewrite Hpacket. cbn [app map]. now rewrite !map_app. }
  destruct (frame_slices (hex_pair 0xFD) (map hex_pair header) (map hex_pair payload)
              (map hex_pair crc)) as (Hlen & Hs1 & Hs2 & Hs3);
    [now rewrite length_map | now rewrite length_map|].
  rewrite <- Hpairs in Hlen, Hs1, Hs2, Hs3. rewrite length_map in Hs2.
  unfold hex_dump. destruct packet as [|b0 rest] eqn:Hp; [discriminate Hpacket|].
  rewrite <- Hp in *. rewrite Hsecond, bytes_list_hexlify, Nat2Z.id.
  rewrite Hs1, Hs2, Hs3, Hlen, length_map.
  replace (10 <? 13 + length payload)%nat with true by (symmetry; apply Nat.ltb_lt; lia).
  replace (11 <? 13 + length payload)%nat with true by (symmetry; apply Nat.ltb_lt; lia).
  replace (2 <=? 13 + length payload)%nat with true by (symmetry; apply Nat.leb_le; lia).
  rewrite Hpairs at 1. reflexivity.
Qed.

Lemma dump_shows_frame_parts_witness :
  exists payload crc,
    pack_payload (fields sensor_info) sensor_data = inr payload
    /\ fst (Plain.create_mavlink_packet (init 100 190) 50000 sensor_info sensor_data)
       = Packet ([0xFD] ++ header_bytes (init 100 190) (sequence (init 100 190))
                   (Z.of_nat (length payload)) 50000
                 ++ payload ++ crc)
    /\ length crc = 2%nat
    /\ snd (hex_dump ([0xFD] ++ header_bytes (init 100 190) (sequence (init 100 190))
                                 (Z.of_nat (length payload)) 50000
                      ++ payload ++ crc)) = None.
Proof.
  destruct (Plain.create_mavlink_packet (init 100 190) 50000 sensor_info sensor_data)
    as [[packet| |e] self'] eqn:Hcall; try (vm_compute in Hcall; discriminate Hcall).
  destruct (dump_shows_frame_parts Plain.create_mavlink_packet (init 100 190) self'
              50000 sensor_info sensor_data packet (or_introl eq_refl) Hcall)
    as (payload & crc & Hpay & Hpacket & Hc & Hdump).
  exists payload, crc. cbn [fst]. rewrite <- Hpacket, Hdump.
  repeat split; assumption || reflexivity.
Defined.

End HexDump.

Section HexDumpChunks.

Lemma chunks_concat {A : Type} (l : list A) (m : nat) :
  concat (map (fun k => take 8 (drop (8 + k * 8) l)) (seq 0 m))
  = take (m * 8) (drop 8 l).
Proof.
  induction m as [|m IH]; [reflexivity|].
  rewrite seq_S, map_app, concat_app, IH. cbn [map concat Nat.add].
  rewrite app_nil_r.
  replace (S m * 8)%nat with (m * 8 + 8)%nat by lia.
  rewrite <- take_take_drop, drop_drop. reflexivity.
Qed.

Lemma more_chunks_unfold {A : Type} (l : list A) :
  (8 < length l)%nat ->
  more_chunks l
  = map (fun k => take 8 (drop (8 + k * 8) l)) (seq 0 ((length l - 1) / 8)).
Proof.
  intros Hlen. unfold more_chunks, py_range, slice.
  replace (8 <? length l)%nat with true by (symmetry; apply Nat.ltb_lt; lia).
  replace (length l - 8 + 8 - 1)%nat with (length l - 1)%nat by lia.
  rewrite map_map. apply map_ext. intros k.
  replace (8 + k * 8 + 8 - (8 + k * 8))%nat with 8%nat by lia. reflexivity.
Qed.

(** X23. The payload lines of the dump tile the payload slice: the chunks
    printed, joined in order, are the slice; every chunk holds between one
    and eight pairs; a slice of [n >= 1] pairs takes [(n + 7) / 8] lines. *)
Theorem payload_lines_tile_the_slice (payload_bytes : list string) :
  payload_bytes <> [] ->
  first_chunk payload_bytes ++ concat (more_chunks payload_bytes) = payload_bytes
  /\ Forall (fun chunk => (1 <= length chunk <= 8)%nat)
       (first_chunk payload_bytes :: more_chunks payload_bytes)
  /\ length (payload_lines payload_bytes) = ((length payload_bytes + 7) / 8)%nat.
Proof.
  intros Hne.
  assert (Hpos : (1 <= length payload_bytes)%nat).
  { destruct payload_bytes; [contradiction | cbn; lia]. }
  assert (Hlines : length (payload_lines payload_bytes)
                   = S (length (more_chunks payload_bytes))).
  { unfold payload_lines. destruct payload_bytes; [contradiction|].
    cbn [length]. now rewrite length_map. }
  rewrite Hlines. unfold first_chunk.
  destruct (Nat.ltb_spec 8 (length payload_bytes)) as [Hlong|Hshort].
  - rewrite more_chunks_unfold by exact Hlong.
    set (m := ((length payload_bytes - 1) / 8)%nat).
    pose proof (Nat.div_mod_eq (length payload_bytes - 1) 8) as Hdiv.
    pose proof (Nat.mod_upper_bound (length payload_bytes - 1) 8 ltac:(lia)) as Hmod.
    fold m in Hdiv.
    rewrite Nat.min_l by lia. split; [|split].
    + rewrite chunks_concat, (take_ge (drop 8 payload_bytes));
        [apply take_drop | rewrite length_drop; lia].
    + constructor; [rewrite length_take; lia|].
      apply Forall_forall. intros chunk Hin. apply list_elem_of_In, in_map_iff in Hin as (k & <- & Hk).
      apply in_seq in Hk. rewrite length_take, length_drop. lia.
    + rewrite length_map, length_seq.
      replace (length payload_bytes + 7)%nat with (length payload_bytes - 1 + 1 * 8)%nat
        by lia.
      rewrite Nat.div_add by lia. fold m. lia.
  - unfold more_chunks.
    replace (8 <? length payload_bytes)%nat with false
      by (symmetry; apply Nat.ltb_ge; lia).
    rewrite Nat.min_r by lia. rewrite firstn_all. split; [|split].
    + apply app_nil_r.
    + constructor; [lia | constructor].
    + cbn [length]. apply (Nat.div_unique _ 8 1 (length payload_bytes - 1)); lia.
Qed.

Lemma payload_lines_tile_the_slice_witness :
  first_chunk (map hex_pair (seq_bytes 0 17))
  ++ concat (more_chunks (map hex_pair (seq_bytes 0 17)))
  = map hex_pair (seq_bytes 0 17)
  /\ length (payload_lines (map hex_pair (seq_bytes 0 17))) = 3%nat.
Proof.
  destruct (payload_lines_tile_the_slice (map hex_pair (seq_bytes 0 17)))
    as (Htile & _ & Hlines).
  - discriminate.
  - split; [exact Htile | exact Hlines].
Defined.

(** X24. The dump reads [packet[1]] without a test: it ends in an
    [IndexError], after the title and the start byte, exactly for a packet
    of one byte, and only an empty packet prints nothing. *)
Theorem dump_fails_only_on_one_byte (packet : list Z) :
  (snd (hex_dump packet) = Some IndexError <-> length packet = 1%nat)
  /\ (snd (hex_dump packet) = None <-> length packet <> 1%nat)
  /\ (fst (hex_dump packet) = [] <-> packet = [])
  /\ (length packet = 1%nat -> length (fst (hex_dump packet)) = 2%nat).
Proof.
  destruct packet as [|b0 [|b1 rest]].
  - cbn. repeat split; try discriminate; try reflexivity; intros; lia.
  - cbn. repeat split; try discriminate; try reflexivity; try (intros; lia).
  - unfold hex_dump. cbn [lookup list_lookup fst snd length].
    repeat split; try discriminate; try (intros; lia); try reflexivity.
Qed.

End HexDumpChunks.
